(** * WhatsApp bot service (server.js): session registry, lifecycle
      handlers, heartbeat timers and webhook forwarding.

    The service is asynchronous JavaScript.  Every function of server.js is
    embedded as a program of the free monad [Prog] over the operations the
    code performs: registry accesses ([activeSessions]), timers, logging,
    HTTP responses and the calls into Baileys, axios, qrcode and fs.
    A program that calls an operation receives either its value or the
    error it throws, which is how [try]/[catch] is written.  Closures that
    the code hands to [sock.ev.on], [setTimeout] and [setInterval] are
    represented by the data they capture. *)

From Stdlib Require Import ZArith Ascii String.
From stdpp Require Import gmap strings list fin_maps.

Local Open Scope Z_scope.
Local Open Scope string_scope.
Local Open Scope list_scope.

Set Warnings "-register-all".

(** ** JavaScript values that cross the HTTP boundary *)

Inductive JsVal : Type :=
| VUndefined
| VNull
| VBool (b : bool)
| VNum (n : Z)
| VStr (s : string)
| VArr (l : list JsVal)
| VObj (fields : list (string * JsVal)).

(** [if (v)]: JavaScript truthiness. *)
Definition truthy (v : JsVal) : bool :=
  match v with
  | VUndefined | VNull => false
  | VBool b => b
  | VNum n => negb (Z.eqb n 0)
  | VStr s => negb (String.eqb s "")
  | VArr _ | VObj _ => true
  end.

Fixpoint assoc_get (k : string) (fields : list (string * JsVal)) : JsVal :=
  match fields with
  | [] => VUndefined
  | (k', v) :: rest => if String.eqb k k' then v else assoc_get k rest
  end.

(** [v?.k]: property read with optional chaining. *)
Definition get_field (k : string) (v : JsVal) : JsVal :=
  match v with
  | VObj fields => assoc_get k fields
  | _ => VUndefined
  end.

(** A string that may be [undefined], as a payload value. *)
Definition of_opt_string (o : option string) : JsVal :=
  match o with Some s => VStr s | None => VUndefined end.

(** [a || b] on strings that may be undefined: the empty string is falsy. *)
Definition str_truthy (o : option string) : bool :=
  match o with Some s => negb (String.eqb s "") | None => false end.

Definition str_or (a b : option string) : option string :=
  if str_truthy a then a else b.

(** [o?.f]: optional chaining on a record that may be undefined. *)
Definition chain {A B} (o : option A) (f : A -> option B) : option B :=
  match o with Some a => f a | None => None end.

(** [s.split(c)] for a one-character separator. *)
Fixpoint split_go (c : Ascii.ascii) (s : string) (cur : string) : list string :=
  match s with
  | EmptyString => [String.rev cur]
  | String a rest =>
      if Ascii.eqb a c then String.rev cur :: split_go c rest EmptyString
      else split_go c rest (String a cur)
  end.

Definition split (c : Ascii.ascii) (s : string) : list string :=
  split_go c s EmptyString.

(** [a[0]] on an array of strings that is never empty. *)
Definition first_or_empty (l : list string) : string :=
  match l with x :: _ => x | [] => "" end.

(** ** Errors and results *)

Inductive Err : Type :=
| Error (message : string)
| TypeError (message : string).

Definition err_message (e : Err) : string :=
  match e with Error m | TypeError m => m end.

Inductive result (X : Type) : Type :=
| Ok (x : X)
| Fail (e : Err).
Arguments Ok {X} x.
Arguments Fail {X} e.

Definition is_ok {X} (r : result X) : bool :=
  match r with Ok _ => true | Fail _ => false end.

(** ** Baileys data *)

Record WASocket : Type := { sock_id : nat }.

Record MultiFileAuthState : Type := { state : nat; saveCreds : nat }.

Record Contact : Type := { id : string; name : option string }.

Inductive WAConnectionState : Type := conn_open | conn_connecting | conn_close.

Record BoomOutput : Type := { statusCode : option Z }.
Record Boom : Type := { output : option BoomOutput }.
Record LastDisconnect : Type := { error : option Boom }.

Record ConnectionUpdate : Type := {
  connection : option WAConnectionState;
  lastDisconnect : option LastDisconnect;
  qr : option string
}.

Record MessageKey : Type := { remoteJid : string; fromMe : bool }.
Record ExtendedTextMessage : Type := { text : option string }.
Record Message : Type := {
  conversation : option string;
  extendedTextMessage : option ExtendedTextMessage
}.
Record WAMessage : Type := { key : MessageKey; message : option Message }.
Record MessagesUpsert : Type := { messages : list WAMessage }.

(** Closures of server.js, by what they capture. *)
Inductive Listener : Type :=
| on_connection_update (sessionId : string) (sock : WASocket)
| on_creds_update (save : nat)
| on_messages_upsert (sessionId : string) (sock : WASocket).

Inductive Callback : Type :=
| cb_createBotSession (sessionId : string)
| cb_heartbeat (sessionId : string).

Inductive EventName : Type := connection_update | creds_update | messages_upsert.

#[global] Instance EventName_eq_dec : EqDecision EventName.
Proof. solve_decision. Defined.

Record Response : Type := { data : JsVal }.

(** ** Operations *)

Inductive Op : Type -> Type :=
(* activeSessions *)
| MapHas (k : string) : Op bool
| MapGet (k : string) : Op (option WASocket)
| MapSet (k : string) (v : WASocket) : Op unit
| MapDelete (k : string) : Op unit
(* timers *)
| SetTimeout (cb : Callback) (ms : Z) : Op nat
| SetInterval (cb : Callback) (ms : Z) : Op nat
| ClearInterval (t : nat) : Op unit
(* logger and HTTP response *)
| LoggerInfo (msg : string) : Op unit
| LoggerError (msg : string) (e : Err) : Op unit
| ResJson (status : Z) (body : JsVal) : Op unit
(* Baileys *)
| UseMultiFileAuthState (folder : string) : Op MultiFileAuthState
| FetchLatestBaileysVersion : Op (list Z)
| MakeWASocket (version : list Z) (auth : nat) : Op WASocket
| EvOn (sock : WASocket) (ev : EventName) (l : Listener) : Op unit
| SockUser (sock : WASocket) : Op (option Contact)
| SockSendMessage (sock : WASocket) (jid : string) (content : JsVal) : Op unit
| SockLogout (sock : WASocket) : Op unit
| SaveCreds (save : nat) : Op unit
(* qrcode, axios, fs.promises *)
| QRCodeToDataURL (qr : string) : Op string
| AxiosPost (url : string) (body : JsVal) (timeout : option Z) : Op Response
| FspRm (path : string) (recursive force : bool) : Op unit.

(** The operations whose promise is pending when the caller awaits it. *)
Definition is_async {X} (op : Op X) : bool :=
  match op with
  | UseMultiFileAuthState _ | FetchLatestBaileysVersion
  | SockSendMessage _ _ _ | SockLogout _ | SaveCreds _
  | QRCodeToDataURL _ | AxiosPost _ _ _ | FspRm _ _ _ => true
  | _ => false
  end.

(** ** Programs *)

Inductive Prog (A : Type) : Type :=
| Ret (a : A)
| Throw (e : Err)
| Vis {X : Type} (op : Op X) (k : result X -> Prog A).
Arguments Ret {A} a.
Arguments Throw {A} e.
Arguments Vis {A X} op k.

Fixpoint bind {A B} (p : Prog A) (f : A -> Prog B) : Prog B :=
  match p with
  | Ret a => f a
  | Throw e => Throw e
  | Vis op k => Vis op (fun r => bind (k r) f)
  end.

(** [try { p } catch (error) { h error }] *)
Fixpoint try_catch {A} (p : Prog A) (h : Err -> Prog A) : Prog A :=
  match p with
  | Ret a => Ret a
  | Throw e => h e
  | Vis op k => Vis op (fun r => try_catch (k r) h)
  end.

Definition call {X} (op : Op X) : Prog X :=
  Vis op (fun r => match r with Ok x => Ret x | Fail e => Throw e end).

Declare Scope prog_scope.
Delimit Scope prog_scope with prog.
Notation "x <- p ;; q" := (bind p (fun x => q))
  (at level 20, p at level 99, q at level 200, right associativity)
  : prog_scope.
Notation "p ;; q" := (bind p (fun _ => q))
  (at level 100, q at level 200, right associativity) : prog_scope.
Local Open Scope prog_scope.

(** ** The world a program runs in *)

Record Timer : Type := {
  timer_id : nat;
  timer_repeat : bool;          (* [setInterval] rather than [setTimeout] *)
  timer_ms : Z;
  timer_cb : Callback
}.

(** One performed operation with what it returned or threw. *)
Inductive Effect : Type :=
| Did {X : Type} (op : Op X) (r : result X).

Record World : Type := {
  activeSessions : gmap string WASocket;
  timers : list Timer;
  next_timer : nat;
  listeners : list (WASocket * EventName * Listener);
  trace : list Effect;
  calls : nat
}.

Definition empty_world : World :=
  {| activeSessions := ∅; timers := []; next_timer := 0%nat;
     listeners := []; trace := []; calls := 0%nat |}.

(** What the libraries, the network and the disk answer: the outcome of
    the [n]-th outside call.  Only the operations that leave the process
    consult it. *)
Definition Env : Type := nat -> forall X, Op X -> result X.

Definition set_activeSessions (m : gmap string WASocket) (w : World) : World :=
  {| activeSessions := m; timers := timers w; next_timer := next_timer w;
     listeners := listeners w; trace := trace w; calls := calls w |}.

Definition add_timer (rep : bool) (cb : Callback) (ms : Z) (w : World) : World :=
  {| activeSessions := activeSessions w;
     timers := timers w ++
       [{| timer_id := next_timer w; timer_repeat := rep;
           timer_ms := ms; timer_cb := cb |}];
     next_timer := S (next_timer w);
     listeners := listeners w; trace := trace w; calls := calls w |}.

Definition drop_timer (t : nat) (w : World) : World :=
  {| activeSessions := activeSessions w;
     timers := List.filter (fun x => negb (Nat.eqb (timer_id x) t)) (timers w);
     next_timer := next_timer w;
     listeners := listeners w; trace := trace w; calls := calls w |}.

Definition add_listener (s : WASocket) (ev : EventName) (l : Listener)
    (w : World) : World :=
  {| activeSessions := activeSessions w; timers := timers w;
     next_timer := next_timer w;
     listeners := listeners w ++ [(s, ev, l)];
     trace := trace w; calls := calls w |}.

Definition outside (w : World) : World :=
  {| activeSessions := activeSessions w; timers := timers w;
     next_timer := next_timer w; listeners := listeners w;
     trace := trace w; calls := S (calls w) |}.

Definition record (e : Effect) (w : World) : World :=
  {| activeSessions := activeSessions w; timers := timers w;
     next_timer := next_timer w; listeners := listeners w;
     trace := trace w ++ [e]; calls := calls w |}.

Definition has (k : string) (w : World) : bool :=
  match activeSessions w !! k with Some _ => true | None => false end.

(** The state change and the answer of one operation. *)
Definition perform (env : Env) {X} (op : Op X) (w : World) : result X * World :=
  match op in Op X return result X * World with
  | MapHas k => (Ok (has k w), w)
  | MapGet k => (Ok (activeSessions w !! k), w)
  | MapSet k v => (Ok tt, set_activeSessions (<[k := v]> (activeSessions w)) w)
  | MapDelete k => (Ok tt, set_activeSessions (delete k (activeSessions w)) w)
  | SetTimeout cb ms => (Ok (next_timer w), add_timer false cb ms w)
  | SetInterval cb ms => (Ok (next_timer w), add_timer true cb ms w)
  | ClearInterval t => (Ok tt, drop_timer t w)
  | LoggerInfo _ => (Ok tt, w)
  | LoggerError _ _ => (Ok tt, w)
  | ResJson _ _ => (Ok tt, w)
  | EvOn s ev l =>
      match env (calls w) _ (EvOn s ev l) with
      | Ok u => (Ok u, add_listener s ev l (outside w))
      | Fail e => (Fail e, outside w)
      end
  | op' => (env (calls w) _ op', outside w)
  end.

Definition handle (env : Env) {X} (op : Op X) (w : World) : result X * World :=
  let '(r, w') := perform env op w in (r, record (Did op r) w').

(** A handler run from its start to its end, every awaited call answered
    by [env]. *)
Fixpoint run {A} (env : Env) (p : Prog A) (w : World) : result A * World :=
  match p with
  | Ret a => (Ok a, w)
  | Throw e => (Fail e, w)
  | Vis op k => let '(r, w') := handle env op w in run env (k r) w'
  end.

(** The same run stopped at a pending promise: [run_until n] lets [n]
    awaited calls complete and stops at the next one.  [run_until 0] is
    what happens in the scheduling tick in which the program is called. *)
Inductive Status (A : Type) : Type :=
| Finished (r : result A)
| Awaiting {X : Type} (op : Op X) (k : result X -> Prog A).
Arguments Finished {A} r.
Arguments Awaiting {A X} op k.

Fixpoint run_until {A} (env : Env) (n : nat) (p : Prog A) (w : World)
    : Status A * World :=
  match p with
  | Ret a => (Finished (Ok a), w)
  | Throw e => (Finished (Fail e), w)
  | Vis op k =>
      if is_async op then
        match n with
        | O => (Awaiting op k, w)
        | S n' => let '(r, w') := handle env op w in run_until env n' (k r) w'
        end
      else let '(r, w') := handle env op w in run_until env n (k r) w'
  end.

(** ** What a run did: the operations of a kind in a trace *)

Definition posts_of (e : Effect) : list (string * JsVal * option Z) :=
  match e with
  | Did op _ =>
      match op with
      | AxiosPost url body timeout => [(url, body, timeout)]
      | _ => []
      end
  end.

Definition sends_of (e : Effect) : list (WASocket * string * JsVal) :=
  match e with
  | Did op _ =>
      match op with
      | SockSendMessage sock jid content => [(sock, jid, content)]
      | _ => []
      end
  end.

Definition responses_of (e : Effect) : list (Z * JsVal) :=
  match e with
  | Did op _ =>
      match op with
      | ResJson status body => [(status, body)]
      | _ => []
      end
  end.

Definition removals_of (e : Effect) : list (string * bool * bool) :=
  match e with
  | Did op _ =>
      match op with
      | FspRm path recursive force => [(path, recursive, force)]
      | _ => []
      end
  end.

(** The HTTP requests sent, the messages sent through a socket, the HTTP
    responses given and the file removals asked for, in order. *)
Definition posts (tr : list Effect) := flat_map posts_of tr.
Definition sends (tr : list Effect) := flat_map sends_of tr.
Definition responses (tr : list Effect) := flat_map responses_of tr.
Definition removals (tr : list Effect) := flat_map removals_of tr.

(** What was added to the trace between [w] and a later world [w']. *)
Definition new_trace (w w' : World) : list Effect :=
  skipn (length (trace w)) (trace w').

(** ** Sample environments *)

(** Every outside call succeeds; [sock.user] is [user], the backend
    answers every POST with the body [backend], and a new socket is
    numbered by the call that made it. *)
Definition env_ok (user : option Contact) (backend : JsVal) : Env :=
  fun n X op =>
    match op in Op X return result X with
    | MapHas _ => Ok false
    | MapGet _ => Ok None
    | MapSet _ _ | MapDelete _ | ClearInterval _ | LoggerInfo _
    | LoggerError _ _ | ResJson _ _ | EvOn _ _ _ | SockSendMessage _ _ _
    | SockLogout _ | SaveCreds _ | FspRm _ _ _ => Ok tt
    | SetTimeout _ _ | SetInterval _ _ => Ok 0%nat
    | UseMultiFileAuthState _ => Ok {| state := n; saveCreds := n |}
    | FetchLatestBaileysVersion => Ok [2; 3000; 1015901307]
    | MakeWASocket _ _ => Ok {| sock_id := n |}
    | SockUser _ => Ok user
    | QRCodeToDataURL code => Ok ("data:image/png;base64," +:+ code)
    | AxiosPost _ _ _ => Ok {| data := backend |}
    end.

(** Every outside call fails: no network, no disk. *)
Definition env_down : Env :=
  fun n X op => Fail (Error "ECONNREFUSED").

Definition alice : Contact :=
  {| id := "123@s.whatsapp.net"; name := Some "Alice" |}.

Definition update_open : ConnectionUpdate :=
  {| connection := Some conn_open; lastDisconnect := None; qr := None |}.

Definition update_close (code : Z) : ConnectionUpdate :=
  {| connection := Some conn_close;
     lastDisconnect :=
       Some {| error := Some {| output := Some {| statusCode := Some code |} |} |};
     qr := None |}.

Definition text_message (from : string) (body : string) : WAMessage :=
  {| key := {| remoteJid := from; fromMe := false |};
     message := Some {| conversation := Some body;
                        extendedTextMessage := None |} |}.

(** ** server.js *)

Section Server.

(** [process.env.LARAVEL_URL], and Baileys' [DisconnectReason.loggedOut]. *)
Variable process_env_LARAVEL_URL : option string.
Variable DisconnectReason_loggedOut : Z.

Definition LARAVEL_URL : string :=
  match str_or process_env_LARAVEL_URL (Some "http://localhost:8000") with
  | Some s => s
  | None => ""
  end.

Definition sendWebhook (endpoint : string) (data : JsVal) : Prog unit :=
  try_catch
    (call (AxiosPost (LARAVEL_URL +:+ endpoint) data (Some 5000)) ;;
     Ret tt)
    (fun error =>
       call (LoggerError ("Webhook failed " +:+ endpoint +:+ ":")
                         (Error (err_message error)))).

Definition startHeartbeat (sessionId : string) : Prog unit :=
  call (SetInterval (cb_heartbeat sessionId) 30000) ;;
  Ret tt.

(** The callback of [startHeartbeat]; [interval] is the id that its own
    [setInterval] returned. *)
Definition heartbeat_tick (sessionId : string) (interval : nat) : Prog unit :=
  present <- call (MapHas sessionId) ;;
  if negb present then call (ClearInterval interval)
  else
    try_catch
      (sendWebhook "/api/webhook/wa/heartbeat"
                   (VObj [("sessionId", VStr sessionId)]))
      (fun error =>
         call (LoggerError ("Heartbeat failed for " +:+ sessionId +:+ ":")
                           error)).

Definition messageText (msg : WAMessage) : string :=
  match str_or (chain (message msg) conversation)
          (str_or (chain (chain (message msg) extendedTextMessage) text)
                  (Some ""))
  with
  | Some s => s
  | None => ""
  end.

Definition forwardToLaravel (sock : WASocket) (msg : WAMessage)
    (sessionId : string) : Prog unit :=
  try_catch
    (let sender := remoteJid (key msg) in
     response <- call (AxiosPost
                   (LARAVEL_URL +:+ "/api/webhook/wa/incoming-message")
                   (VObj [("sessionId", VStr sessionId);
                          ("from", VStr sender);
                          ("text", VStr (messageText msg))])
                   None) ;;
     call (LoggerInfo ("Forwarded message from " +:+ sender +:+ ": "
                       +:+ messageText msg)) ;;
     let reply := get_field "reply" (data response) in
     if truthy reply
     then call (SockSendMessage sock sender (VObj [("text", reply)]))
     else Ret tt)
    (fun error =>
       call (LoggerError "Failed to get reply from Laravel:"
                         (Error (err_message error)))).

(** [lastDisconnect?.error?.output?.statusCode] *)
Definition disconnect_statusCode (update : ConnectionUpdate) : option Z :=
  chain (chain (chain (lastDisconnect update) error) output) statusCode.

Definition shouldReconnect (update : ConnectionUpdate) : bool :=
  match disconnect_statusCode update with
  | Some c => negb (Z.eqb c DisconnectReason_loggedOut)
  | None => true
  end.

Definition phoneInfo (user : Contact) : JsVal :=
  VObj [("jid", VStr (id user));
        ("name", of_opt_string (name user));
        ("phone", VStr (first_or_empty (split ":"%char (id user))))].

(** The ["connection.update"] listener of [createBotSession], in its two
    statements: [if (qr) ...] and [if (connection === "close") ... else if
    (connection === "open") ...]. *)
Definition qr_step (sessionId : string) (update : ConnectionUpdate)
    : Prog unit :=
  match qr update with
  | Some code =>
      if str_truthy (Some code) then
        qrCode <- call (QRCodeToDataURL code) ;;
        sendWebhook "/api/webhook/wa/qr-update"
          (VObj [("sessionId", VStr sessionId); ("qrCode", VStr qrCode)])
      else Ret tt
  | None => Ret tt
  end.

Definition connection_step (sessionId : string) (sock : WASocket)
    (update : ConnectionUpdate) : Prog unit :=
  match connection update with
  | Some conn_close =>
      sendWebhook "/api/webhook/wa/connection-update"
        (VObj [("sessionId", VStr sessionId);
               ("status", VStr "disconnected");
               ("phoneInfo", VNull)]) ;;
      if shouldReconnect update then
        call (LoggerInfo ("Reconnecting session " +:+ sessionId +:+ "...")) ;;
        call (SetTimeout (cb_createBotSession sessionId) 3000) ;;
        Ret tt
      else call (MapDelete sessionId)
  | Some conn_open =>
      call (LoggerInfo ("Session " +:+ sessionId +:+ " connected successfully")) ;;
      user <- call (SockUser sock) ;;
      match user with
      | None =>
          Throw (TypeError "Cannot read properties of undefined (reading 'id')")
      | Some u =>
          sendWebhook "/api/webhook/wa/connection-update"
            (VObj [("sessionId", VStr sessionId);
                   ("status", VStr "connected");
                   ("phoneInfo", phoneInfo u)]) ;;
          startHeartbeat sessionId
      end
  | _ => Ret tt
  end.

Definition connection_update_handler (sessionId : string) (sock : WASocket)
    (update : ConnectionUpdate) : Prog unit :=
  qr_step sessionId update ;;
  connection_step sessionId sock update.

(** The ["messages.upsert"] listener of [createBotSession]. *)
Definition messages_upsert_handler (sessionId : string) (sock : WASocket)
    (m : MessagesUpsert) : Prog unit :=
  match messages m with
  | [] => Throw (TypeError "Cannot read properties of undefined (reading 'key')")
  | msg :: _ =>
      if negb (fromMe (key msg)) && bool_decide (is_Some (message msg))
      then forwardToLaravel sock msg sessionId
      else Ret tt
  end.

(** The body of the [try] of [createBotSession]. *)
Definition createBotSession_try (sessionId : string) : Prog (option WASocket) :=
  auth <- call (UseMultiFileAuthState ("./sessions/" +:+ sessionId)) ;;
  version <- call FetchLatestBaileysVersion ;;
  sock <- call (MakeWASocket version (state auth)) ;;
  call (EvOn sock connection_update (on_connection_update sessionId sock)) ;;
  call (EvOn sock creds_update (on_creds_update (saveCreds auth))) ;;
  call (EvOn sock messages_upsert (on_messages_upsert sessionId sock)) ;;
  call (MapSet sessionId sock) ;;
  Ret (Some sock).

Definition createBotSession (sessionId : string) : Prog (option WASocket) :=
  try_catch (createBotSession_try sessionId)
    (fun error =>
       call (LoggerError ("Error creating session " +:+ sessionId +:+ ":")
                         error) ;;
       sendWebhook "/api/webhook/wa/connection-update"
         (VObj [("sessionId", VStr sessionId);
                ("status", VStr "disconnected");
                ("phoneInfo", VNull)]) ;;
       Ret None).

(** [POST /bot/create]; the argument is [req.body.sessionId]. *)
Definition bot_create (sessionId : option string) : Prog unit :=
  match sessionId with
  | Some sid =>
      if negb (str_truthy (Some sid)) then
        call (ResJson 400 (VObj [("error", VStr "Session ID required")]))
      else
        present <- call (MapHas sid) ;;
        if (present : bool) then
          call (ResJson 400 (VObj [("error", VStr "Session already exists")]))
        else
          call (LoggerInfo ("Creating bot session: " +:+ sid)) ;;
          createBotSession sid ;;
          call (ResJson 200
                  (VObj [("message", VStr "Bot session creation initiated");
                         ("sessionId", VStr sid)]))
  | None => call (ResJson 400 (VObj [("error", VStr "Session ID required")]))
  end.

(** [POST /bot/destroy]; the argument is [req.body.sessionId]. *)
Definition bot_destroy (sessionId : option string) : Prog unit :=
  match sessionId with
  | Some sid =>
      if negb (str_truthy (Some sid)) then
        call (ResJson 400 (VObj [("error", VStr "Session ID required")]))
      else
        sock <- call (MapGet sid) ;;
        match sock with
        | Some s =>
            try_catch (call (SockLogout s))
              (fun error =>
                 call (LoggerError ("Error logging out session " +:+ sid +:+ ":")
                                   error)) ;;
            call (MapDelete sid)
        | None => Ret tt
        end ;;
        try_catch (call (FspRm ("./sessions/" +:+ sid) true true))
          (fun error =>
             call (LoggerError ("Error cleaning session files " +:+ sid +:+ ":")
                               error)) ;;
        call (LoggerInfo ("Bot session destroyed: " +:+ sid)) ;;
        call (ResJson 200
                (VObj [("message", VStr "Bot session destroyed");
                       ("sessionId", VStr sid)]))
  | None => call (ResJson 400 (VObj [("error", VStr "Session ID required")]))
  end.

(** ** The event loop

    What reaches the process is an HTTP request, an event emitted by a
    socket, or a timer that is due.  Each one runs the handlers the code
    registered for it.  [dispatch] runs a handler to its end before the
    next action is taken: of the schedules of the event loop, these are
    the ones in which no other handler runs while one awaits.  What a
    handler does in the tick in which it is called is given by
    [run_until]. *)

Inductive SockEvent : Type :=
| ev_connection_update (update : ConnectionUpdate)
| ev_creds_update
| ev_messages_upsert (m : MessagesUpsert).

Definition event_name (e : SockEvent) : EventName :=
  match e with
  | ev_connection_update _ => connection_update
  | ev_creds_update => creds_update
  | ev_messages_upsert _ => messages_upsert
  end.

Inductive Action : Type :=
| post_bot_create (sessionId : option string)
| post_bot_destroy (sessionId : option string)
| emit (sock : WASocket) (e : SockEvent)
| fire (t : nat).

Definition listener_prog (l : Listener) (e : SockEvent) : Prog unit :=
  match l, e with
  | on_connection_update sessionId sock, ev_connection_update update =>
      connection_update_handler sessionId sock update
  | on_creds_update save, ev_creds_update => call (SaveCreds save)
  | on_messages_upsert sessionId sock, ev_messages_upsert m =>
      messages_upsert_handler sessionId sock m
  | _, _ => Ret tt
  end.

Definition callback_prog (t : Timer) : Prog unit :=
  match timer_cb t with
  | cb_createBotSession sessionId => createBotSession sessionId ;; Ret tt
  | cb_heartbeat sessionId => heartbeat_tick sessionId (timer_id t)
  end.

Definition listens (s : WASocket) (e : SockEvent)
    (x : WASocket * EventName * Listener) : bool :=
  match x with
  | (s', ev, _) =>
      Nat.eqb (sock_id s') (sock_id s)
      && bool_decide (ev = event_name e)
  end.

Definition find_timer (t : nat) (w : World) : option Timer :=
  List.find (fun x => Nat.eqb (timer_id x) t) (timers w).

Definition dispatch (env : Env) (a : Action) (w : World) : World :=
  match a with
  | post_bot_create sessionId => snd (run env (bot_create sessionId) w)
  | post_bot_destroy sessionId => snd (run env (bot_destroy sessionId) w)
  | emit s e =>
      fold_left
        (fun w' x => snd (run env (listener_prog (snd x) e) w'))
        (List.filter (listens s e) (listeners w)) w
  | fire t =>
      match find_timer t w with
      | None => w
      | Some tm =>
          snd (run env (callback_prog tm)
                 (if timer_repeat tm then w else drop_timer t w))
      end
  end.

Definition dispatch_all (env : Env) (l : list Action) (w : World) : World :=
  fold_left (fun w' a => dispatch env a w') l w.

(** ** Worlds reached by the handlers *)

(** The world after [sendWebhook]: one POST and, when it failed, one log
    line. *)
Definition after_webhook (env : Env) (endpoint : string) (data : JsVal)
    (w : World) : World :=
  let post := AxiosPost (LARAVEL_URL +:+ endpoint) data (Some 5000) in
  match env (calls w) _ post with
  | Ok r => record (Did post (Ok r)) (outside w)
  | Fail e =>
      record (Did (LoggerError ("Webhook failed " +:+ endpoint +:+ ":")
                               (Error (err_message e))) (Ok tt))
        (record (Did post (Fail e)) (outside w))
  end.

(** What [sendWebhook] adds to the trace. *)
Definition webhook_effects (env : Env) (endpoint : string) (data : JsVal)
    (w : World) : list Effect :=
  let post := AxiosPost (LARAVEL_URL +:+ endpoint) data (Some 5000) in
  Did post (env (calls w) _ post) ::
  match env (calls w) _ post with
  | Ok _ => []
  | Fail e =>
      [Did (LoggerError ("Webhook failed " +:+ endpoint +:+ ":")
                        (Error (err_message e))) (Ok tt)]
  end.

Definition disconnected_payload (sessionId : string) : JsVal :=
  VObj [("sessionId", VStr sessionId);
        ("status", VStr "disconnected");
        ("phoneInfo", VNull)].



(** The characters of [s] in front of the first [c], all of [s] when it
    has none; and whether [c] occurs in [s]. *)
Fixpoint before (c : Ascii.ascii) (s : string) : string :=
  match s with
  | EmptyString => EmptyString
  | String a rest => if Ascii.eqb a c then EmptyString else String a (before c rest)
  end.

Fixpoint occurs (c : Ascii.ascii) (s : string) : bool :=
  match s with
  | EmptyString => false
  | String a rest => Ascii.eqb a c || occurs c rest
  end.

Definition connected_payload (sessionId : string) (user : Contact) : JsVal :=
  VObj [("sessionId", VStr sessionId);
        ("status", VStr "connected");
        ("phoneInfo",
         VObj [("jid", VStr (id user));
               ("name", of_opt_string (name user));
               ("phone", VStr (before ":" (id user)))])].

(** The world after the [open] branch, [sock.user] being [user]. *)
Definition after_open (env : Env) (sessionId : string) (sock : WASocket)
    (user : Contact) (w : World) : World :=
  let w1 := record (Did (SockUser sock) (Ok (Some user)))
              (outside
                 (record (Did (LoggerInfo ("Session " +:+ sessionId
                                 +:+ " connected successfully")) (Ok tt)) w)) in
  let w2 := after_webhook env "/api/webhook/wa/connection-update"
              (VObj [("sessionId", VStr sessionId);
                     ("status", VStr "connected");
                     ("phoneInfo", phoneInfo user)]) w1 in
  record (Did (SetInterval (cb_heartbeat sessionId) 30000) (Ok (next_timer w2)))
    (add_timer true (cb_heartbeat sessionId) 30000 w2).

Definition incoming_payload (sessionId : string) (msg : WAMessage) : JsVal :=
  VObj [("sessionId", VStr sessionId);
        ("from", VStr (remoteJid (key msg)));
        ("text", VStr (messageText msg))].

(** What [forwardToLaravel] adds to the trace. *)
Definition forward_effects (env : Env) (sock : WASocket) (msg : WAMessage)
    (sessionId : string) (w : World) : list Effect :=
  let sender := remoteJid (key msg) in
  let post := AxiosPost (LARAVEL_URL +:+ "/api/webhook/wa/incoming-message")
                (incoming_payload sessionId msg) None in
  Did post (env (calls w) _ post) ::
  match env (calls w) _ post with
  | Ok response =>
      Did (LoggerInfo ("Forwarded message from " +:+ sender +:+ ": "
                       +:+ messageText msg)) (Ok tt) ::
      let reply := get_field "reply" (data response) in
      if truthy reply then
        let send := SockSendMessage sock sender (VObj [("text", reply)]) in
        Did send (env (S (calls w)) _ send) ::
        match env (S (calls w)) _ send with
        | Ok _ => []
        | Fail e =>
            [Did (LoggerError "Failed to get reply from Laravel:"
                              (Error (err_message e))) (Ok tt)]
        end
      else []
  | Fail e =>
      [Did (LoggerError "Failed to get reply from Laravel:"
                        (Error (err_message e))) (Ok tt)]
  end.

(** Two worlds that differ in their trace only. *)
Definition same_state (w1 w2 : World) : Prop :=
  activeSessions w1 = activeSessions w2
  /\ timers w1 = timers w2
  /\ next_timer w1 = next_timer w2
  /\ listeners w1 = listeners w2
  /\ calls w1 = calls w2.

Definition creation_failed_log (sessionId : string) (e : Err) : Effect :=
  Did (LoggerError ("Error creating session " +:+ sessionId +:+ ":") e) (Ok tt).

(** The world in which [POST /bot/create] calls [createBotSession]. *)
Definition before_creation (sid : string) (w : World) : World :=
  record (Did (LoggerInfo ("Creating bot session: " +:+ sid)) (Ok tt))
    (record (Did (MapHas sid) (Ok false)) w).

Definition destroyed_response (sessionId : string) : Z * JsVal :=
  (200, VObj [("message", VStr "Bot session destroyed");
              ("sessionId", VStr sessionId)]).

(** ** Heartbeats: what is observed *)









(** Every operation a program can perform, whatever it is answered,
    satisfies [P]. *)
Inductive all_ops {A : Type} (P : forall X, Op X -> Prop) : Prog A -> Prop :=
| all_Ret a : all_ops P (Ret a)
| all_Throw e : all_ops P (Throw e)
| all_Vis X (op : Op X) k :
    P X op -> (forall r, all_ops P (k r)) -> all_ops P (Vis op k).






Definition any_op (X : Type) (op : Op X) : Prop := True.

(** ** Sample runs *)

Definition sock_nr (n : nat) : WASocket := {| sock_id := n |}.

(** A session is created and opens; its connection drops (status 428);
    the reconnection timer fires and the new socket opens. *)
Definition reconnect_scenario : list Action :=
  [post_bot_create (Some "s1");
   emit (sock_nr 2) (ev_connection_update update_open);
   emit (sock_nr 2) (ev_connection_update (update_close 428));
   fire 1;
   emit (sock_nr 11) (ev_connection_update update_open)].

(** A session is created and opens. *)
Definition open_scenario : list Action :=
  [post_bot_create (Some "s1");
   emit (sock_nr 2) (ev_connection_update update_open)].

(** The ids of the live timers that carry the heartbeat callback of
    [sessionId]. *)
Definition heartbeat_timers (sessionId : string) (w : World) : list nat :=
  map timer_id
    (List.filter
       (fun tm => match timer_cb tm with
                  | cb_heartbeat sid => String.eqb sid sessionId
                  | _ => false
                  end)
       (timers w)).


Definition heartbeat_timer (t : nat) (sessionId : string) : Timer :=
  {| timer_id := t; timer_repeat := true; timer_ms := 30000;
     timer_cb := cb_heartbeat sessionId |}.

(** ** The rest of server.js: restoring sessions, listing them, health *)

(** [for (const x of l) { await body(x) }] *)
Fixpoint for_each {A} (l : list A) (body : A -> Prog unit) : Prog unit :=
  match l with
  | [] => Ret tt
  | x :: rest => body x ;; for_each rest body
  end.

(** An entry of [fs.readdirSync(dir, {withFileTypes: true})]. *)
Record Dirent : Type := { dirent_name : string; isDirectory : bool }.

(** [restoreSessions]; the arguments are what [fs.existsSync(sessionDir)]
    returns and what [fs.readdirSync(sessionDir, ...)] returns or throws. *)
Definition restoreSessions (existsSync : bool)
    (readdirSync : result (list Dirent)) : Prog unit :=
  if negb existsSync then Ret tt
  else
    match readdirSync with
    | Fail e => Throw e
    | Ok entries =>
        let sessions := map dirent_name (List.filter isDirectory entries) in
        for_each sessions
          (fun sessionId =>
             call (LoggerInfo ("Restoring session: " +:+ sessionId)) ;;
             createBotSession sessionId ;;
             Ret tt)
    end.

(** The body of the loop of [restoreSessions]. *)
Definition restore_one (sessionId : string) : Prog unit :=
  call (LoggerInfo ("Restoring session: " +:+ sessionId)) ;;
  createBotSession sessionId ;;
  Ret tt.

(** The keys of [activeSessions] in the order in which a JavaScript [Map]
    iterates them: the order of insertion.  [set] on a key that is present
    keeps its place, [delete] takes it out.  The registry itself is kept
    as a [gmap], which has no order: the order is read off the history of
    [set] and [delete] in the trace. *)
Definition keys_step (keys : list string) (e : Effect) : list string :=
  match e with
  | Did op _ =>
      match op with
      | MapSet k _ => if existsb (String.eqb k) keys then keys else keys ++ [k]
      | MapDelete k => List.filter (fun x => negb (String.eqb x k)) keys
      | _ => keys
      end
  end.

Definition keys_in_order (tr : list Effect) : list string :=
  fold_left keys_step tr [].

(** [GET /bot/sessions], answered in the world [w]. *)
Definition bot_sessions (w : World) : Prog unit :=
  let sessions := keys_in_order (trace w) in
  call (ResJson 200
          (VObj [("sessions", VArr (map VStr sessions));
                 ("count", VNum (Z.of_nat (length sessions)))])).

(** [GET /health], answered in the world [w]; [now] is
    [new Date().toISOString()]. *)
Definition health (now : string) (w : World) : Prog unit :=
  call (ResJson 200
          (VObj [("status", VStr "ok");
                 ("timestamp", VStr now);
                 ("activeSessions",
                  VNum (Z.of_nat (size (activeSessions w))))])).

(** Everything that reaches the process: the actions of [dispatch], the
    two GET requests, and the restoration at startup. *)
Inductive Request : Type :=
| action (a : Action)
| get_bot_sessions
| get_health (now : string)
| restore (existsSync : bool) (readdirSync : result (list Dirent)).

Definition serve (env : Env) (r : Request) (w : World) : World :=
  match r with
  | action a => dispatch env a w
  | get_bot_sessions => snd (run env (bot_sessions w) w)
  | get_health now => snd (run env (health now w) w)
  | restore existsSync readdirSync =>
      snd (run env (restoreSessions existsSync readdirSync) w)
  end.

Definition serve_all (env : Env) (l : list Request) (w : World) : World :=
  fold_left (fun w' r => serve env r w') l w.

(** More of what a run did. *)
Definition loads_of (e : Effect) : list string :=
  match e with
  | Did op _ =>
      match op with
      | UseMultiFileAuthState folder => [folder]
      | _ => []
      end
  end.

Definition logouts_of (e : Effect) : list WASocket :=
  match e with
  | Did op _ =>
      match op with
      | SockLogout sock => [sock]
      | _ => []
      end
  end.

(** The credential folders loaded and the sockets logged out, in order. *)
Definition loads (tr : list Effect) := flat_map loads_of tr.
Definition logouts (tr : list Effect) := flat_map logouts_of tr.

(** The registry and its listing agree. *)
Definition listed (w : World) : Prop :=
  List.NoDup (keys_in_order (trace w))
  /\ forall k, In k (keys_in_order (trace w)) <-> is_Some (activeSessions w !! k).

(** Every registered socket carries the three listeners of its session. *)
Definition wired (w : World) : Prop :=
  forall sid sock,
    activeSessions w !! sid = Some sock ->
    In (sock, connection_update, on_connection_update sid sock) (listeners w)
    /\ In (sock, messages_upsert, on_messages_upsert sid sock) (listeners w)
    /\ exists save, In (sock, creds_update, on_creds_update save) (listeners w).

(** Timer ids are given out once. *)
Definition timer_ids_unique (w : World) : Prop :=
  List.NoDup (map timer_id (timers w))
  /\ Forall (fun tm => (timer_id tm < next_timer w)%nat) (timers w).

(** The operations other than [activeSessions.set]. *)
Definition no_set (X : Type) (op : Op X) : Prop :=
  match op with
  | MapSet _ _ => False
  | _ => True
  end.

(** A session is created, opens and loses its connection (status 428);
    it is destroyed while the reconnection is pending. *)
Definition destroyed_while_reconnecting : list Action :=
  [post_bot_create (Some "s1");
   emit (sock_nr 2) (ev_connection_update update_open);
   emit (sock_nr 2) (ev_connection_update (update_close 428));
   post_bot_destroy (Some "s1")].

Definition sample_entries : list Dirent :=
  [{| dirent_name := "a"; isDirectory := true |};
   {| dirent_name := "notes.txt"; isDirectory := false |};
   {| dirent_name := "b"; isDirectory := true |}].

(** The operations other than [sock.logout], and other than
    [sock.sendMessage]. *)
Definition no_logout (X : Type) (op : Op X) : Prop :=
  match op with
  | SockLogout _ => False
  | _ => True
  end.

Definition no_send (X : Type) (op : Op X) : Prop :=
  match op with
  | SockSendMessage _ _ _ => False
  | _ => True
  end.

(** Since the world [w0], nothing that [obs_of] observes was done. *)
Definition none_since {T} (obs_of : Effect -> list T) (w0 w : World) : Prop :=
  exists l, trace w = trace w0 ++ l /\ flat_map obs_of l = [].



(** ** Running programs: equations *)

(** Reduce the projections of a world built by one operation. *)
Ltac proj :=
  cbn [activeSessions timers next_timer listeners trace calls
       record outside add_timer drop_timer add_listener set_activeSessions
       has perform fst snd].


Lemma run_bind {A B} env (p : Prog A) (f : A -> Prog B) w :
  run env (bind p f) w =
  match run env p w with
  | (Ok a, w') => run env (f a) w'
  | (Fail e, w') => (Fail e, w')
  end.
Proof.
  revert w. induction p as [a | e | X op k IH]; intros w; simpl; trivial.
  destruct (handle env op w) as [r w']. apply IH.
Qed.

Lemma run_try_catch {A} env (p : Prog A) (h : Err -> Prog A) w :
  run env (try_catch p h) w =
  match run env p w with
  | (Ok a, w') => (Ok a, w')
  | (Fail e, w') => run env (h e) w'
  end.
Proof.
  revert w. induction p as [a | e | X op k IH]; intros w; simpl; trivial.
  destruct (handle env op w) as [r w']. apply IH.
Qed.

Lemma run_call {X} env (op : Op X) w :
  run env (call op) w = handle env op w.
Proof.
  unfold call. simpl. destruct (handle env op w) as [[x | e] w']; reflexivity.
Qed.

(** Run a program symbolically, as far as the outcomes are known. *)
Ltac exec :=
  repeat first
    [ rewrite run_bind | rewrite run_try_catch | rewrite run_call
    | progress unfold handle | progress proj | progress cbn [run] ].

Lemma new_trace_app w w' l :
  trace w' = trace w ++ l -> new_trace w w' = l.
Proof.
  intros H. unfold new_trace. rewrite H. apply drop_app_length.
Qed.

Lemma new_trace_refl w : new_trace w w = [].
Proof. apply new_trace_app. symmetry. apply app_nil_r. Qed.

(** ** sendWebhook *)

Lemma sendWebhook_run env endpoint data w :
  run env (sendWebhook endpoint data) w
  = (Ok tt, after_webhook env endpoint data w).
Proof.
  unfold sendWebhook, after_webhook. rewrite run_try_catch, run_bind, run_call.
  unfold handle. simpl.
  destruct (env (calls w) Response _) as [r | e]; reflexivity.
Qed.

Lemma after_webhook_trace env endpoint data w :
  trace (after_webhook env endpoint data w)
  = trace w ++ webhook_effects env endpoint data w.
Proof.
  unfold after_webhook, webhook_effects.
  destruct (env (calls w) Response _) as [r | e]; simpl;
    try rewrite <- app_assoc; reflexivity.
Qed.

Lemma webhook_effects_posts env endpoint data w :
  posts (webhook_effects env endpoint data w)
  = [(LARAVEL_URL +:+ endpoint, data, Some 5000)].
Proof.
  unfold webhook_effects.
  destruct (env (calls w) Response _) as [r | e]; reflexivity.
Qed.

Lemma after_webhook_state env endpoint data w :
  activeSessions (after_webhook env endpoint data w) = activeSessions w
  /\ timers (after_webhook env endpoint data w) = timers w
  /\ next_timer (after_webhook env endpoint data w) = next_timer w
  /\ listeners (after_webhook env endpoint data w) = listeners w
  /\ calls (after_webhook env endpoint data w) = S (calls w).
Proof.
  unfold after_webhook.
  destruct (env (calls w) Response _) as [r | e]; simpl; auto.
Qed.

(** C10.  [sendWebhook] never throws: whatever the backend does, it
    returns normally after exactly one POST of the payload to
    [LARAVEL_URL + endpoint] with a timeout of 5000 ms; a failed POST is
    logged with the endpoint and the error message and is not retried; the
    registry and the timers are left as they were. *)
Theorem sendWebhook_never_throws env endpoint data w :
  let post := AxiosPost (LARAVEL_URL +:+ endpoint) data (Some 5000) in
  let w' := snd (run env (sendWebhook endpoint data) w) in
  fst (run env (sendWebhook endpoint data) w) = Ok tt
  /\ posts (new_trace w w') = [(LARAVEL_URL +:+ endpoint, data, Some 5000)]
  /\ new_trace w w' =
       Did post (env (calls w) _ post) ::
       match env (calls w) _ post with
       | Ok _ => []
       | Fail e =>
           [Did (LoggerError ("Webhook failed " +:+ endpoint +:+ ":")
                             (Error (err_message e))) (Ok tt)]
       end
  /\ activeSessions w' = activeSessions w
  /\ timers w' = timers w.
Proof.
  intros post w'. subst w'. rewrite sendWebhook_run. simpl.
  rewrite (new_trace_app _ _ _ (after_webhook_trace env endpoint data w)).
  split; [reflexivity | ]. split; [apply webhook_effects_posts | ].
  split; [reflexivity | split; apply after_webhook_state].
Qed.

(** ** The connection.update listener *)

Lemma handler_run env sessionId sock update w :
  run env (connection_update_handler sessionId sock update) w =
  match run env (qr_step sessionId update) w with
  | (Ok _, w1) => run env (connection_step sessionId sock update) w1
  | (Fail e, w1) => (Fail e, w1)
  end.
Proof. unfold connection_update_handler. apply run_bind. Qed.



Lemma posts_app l1 l2 : posts (l1 ++ l2) = posts l1 ++ posts l2.
Proof. apply flat_map_app. Qed.





(** [s.split(c)[0]] is the part of [s] in front of the first [c]. *)
Lemma split_go_first c s cur :
  first_or_empty (split_go c s cur) = String.rev_app cur (before c s).
Proof.
  revert cur. induction s as [ | a rest IH]; intros cur; simpl.
  - reflexivity.
  - destruct (Ascii.eqb a c); simpl; [ reflexivity | apply IH ].
Qed.

Lemma split_first c s : first_or_empty (split c s) = before c s.
Proof. unfold split. now rewrite split_go_first. Qed.

Lemma before_spec c s :
  occurs c (before c s) = false
  /\ exists rest,
       s = before c s +:+ rest
       /\ (rest = "" \/ exists r, rest = String c r).
Proof.
  induction s as [ | a s' [IHo (rest & IHe & IHr)]]; simpl.
  - split; [ reflexivity | ]. exists "". auto.
  - destruct (Ascii.eqb_spec a c) as [-> | Hne]; simpl.
    + split; [ reflexivity | ]. exists (String c s'). eauto.
    + split.
      * destruct (Ascii.eqb_spec a c); [ contradiction | exact IHo ].
      * exists rest. split; [ | exact IHr ].
        change (String a s' = String a (before c s' +:+ rest)).
        now rewrite <- IHe.
Qed.

Lemma phoneInfo_payload sessionId user :
  VObj [("sessionId", VStr sessionId);
        ("status", VStr "connected");
        ("phoneInfo", phoneInfo user)]
  = connected_payload sessionId user.
Proof. unfold connected_payload, phoneInfo. now rewrite split_first. Qed.

Lemma connection_step_open (env : Env) sessionId sock update user w :
  connection update = Some conn_open ->
  env (calls w) _ (SockUser sock) = Ok (Some user) ->
  run env (connection_step sessionId sock update) w
  = (Ok tt, after_open env sessionId sock user w).
Proof.
  intros Hc Hu. unfold connection_step, after_open. rewrite Hc. cbv iota.
  rewrite run_bind, run_call. unfold handle. proj.
  rewrite run_bind, run_call. unfold handle. proj. rewrite Hu. proj.
  rewrite run_bind, sendWebhook_run.
  reflexivity.
Qed.

Lemma after_open_trace env sessionId sock user w :
  exists l1 l2,
    trace (after_open env sessionId sock user w)
    = trace w ++ l1 ++ webhook_effects env "/api/webhook/wa/connection-update"
                         (connected_payload sessionId user)
                         (record (Did (SockUser sock) (Ok (Some user)))
                            (outside
                               (record (Did (LoggerInfo ("Session " +:+ sessionId
                                  +:+ " connected successfully")) (Ok tt)) w)))
                ++ l2
    /\ posts l1 = [] /\ posts l2 = [].
Proof.
  unfold after_open. simpl. rewrite after_webhook_trace. simpl.
  rewrite phoneInfo_payload.
  eexists [_; _], [_]. split.
  - rewrite <- !app_assoc. reflexivity.
  - split; reflexivity.
Qed.

(** C1 (as the code has it).  An [open] event whose QR step, if it has
    one, did not throw, on a socket whose [user] is set: the handler
    returns normally after exactly one POST to the connection-update
    endpoint, of [{sessionId, status: "connected", phoneInfo}] where
    [phoneInfo] holds the account [id] as [jid], the display [name], and as
    [phone] the part of the id in front of its first [":"] (the whole id
    when it has no [":"]).  One heartbeat interval of 30000 ms is started. *)
Theorem open_event (env : Env) sessionId sock update user w :
  connection update = Some conn_open ->
  fst (run env (qr_step sessionId update) w) = Ok tt ->
  env (calls (snd (run env (qr_step sessionId update) w))) _ (SockUser sock)
    = Ok (Some user) ->
  let w1 := snd (run env (qr_step sessionId update) w) in
  let w' := snd (run env (connection_update_handler sessionId sock update) w) in
  let phone := before ":" (id user) in
  fst (run env (connection_update_handler sessionId sock update) w) = Ok tt
  /\ posts (new_trace w1 w')
     = [(LARAVEL_URL +:+ "/api/webhook/wa/connection-update",
         VObj [("sessionId", VStr sessionId);
               ("status", VStr "connected");
               ("phoneInfo",
                VObj [("jid", VStr (id user));
                      ("name", of_opt_string (name user));
                      ("phone", VStr phone)])],
         Some 5000)]
  /\ occurs ":" phone = false
  /\ (exists rest, id user = phone +:+ rest
                   /\ (rest = "" \/ exists r, rest = String ":" r))
  /\ timers w' = timers w1 ++
       [{| timer_id := next_timer w1; timer_repeat := true;
           timer_ms := 30000; timer_cb := cb_heartbeat sessionId |}].
Proof.
  intros Hc Hqr Hu w1 w' phone. subst w1 w' phone. rewrite handler_run.
  destruct (run env (qr_step sessionId update) w) as [[[] | e] w1];
    simpl in Hqr, Hu; [ | discriminate ].
  rewrite (connection_step_open _ _ _ _ _ _ Hc Hu). simpl.
  split; [ reflexivity | ]. split.
  - destruct (after_open_trace env sessionId sock user w1)
      as (l1 & l2 & Ht & H1 & H2).
    rewrite (new_trace_app _ _ _ Ht), !posts_app, webhook_effects_posts, H1, H2.
    reflexivity.
  - destruct (before_spec ":" (id user)) as (Ho & He).
    split; [ exact Ho | ]. split; [ exact He | ].
    unfold after_open. simpl.
    match goal with
    | |- context [after_webhook ?e ?p ?d ?x] =>
        destruct (after_webhook_state e p d x) as (_ & Ht & Hn & _);
        rewrite Ht, Hn
    end.
    reflexivity.
Qed.

(** ** Inbound messages *)

Lemma forwardToLaravel_run (env : Env) sock msg sessionId w :
  fst (run env (forwardToLaravel sock msg sessionId) w) = Ok tt
  /\ trace (snd (run env (forwardToLaravel sock msg sessionId) w))
     = trace w ++ forward_effects env sock msg sessionId w
  /\ activeSessions (snd (run env (forwardToLaravel sock msg sessionId) w))
     = activeSessions w
  /\ timers (snd (run env (forwardToLaravel sock msg sessionId) w))
     = timers w.
Proof.
  unfold forwardToLaravel, forward_effects, incoming_payload.
  rewrite run_try_catch. cbv zeta. rewrite run_bind, run_call.
  unfold handle. proj.
  destruct (env (calls w) Response _) as [response | e]; proj.
  - rewrite run_bind, run_call. unfold handle. proj.
    destruct (truthy (get_field "reply" (data response))).
    + rewrite run_call. unfold handle. proj.
      destruct (env (S (calls w)) unit _) as [[] | e]; proj.
      * rewrite <- !app_assoc. auto.
      * rewrite run_call. unfold handle. proj. rewrite <- !app_assoc. auto.
    + cbn [run]. proj. rewrite <- !app_assoc. auto.
  - rewrite run_call. unfold handle. proj. rewrite <- !app_assoc. auto.
Qed.

Lemma forward_effects_posts env sock msg sessionId w :
  posts (forward_effects env sock msg sessionId w)
  = [(LARAVEL_URL +:+ "/api/webhook/wa/incoming-message",
      incoming_payload sessionId msg, None)].
Proof.
  unfold forward_effects. cbv zeta.
  destruct (env (calls w) Response _) as [response | e]; [ | reflexivity ].
  destruct (truthy (get_field "reply" (data response))); [ | reflexivity ].
  destruct (env (S (calls w)) unit _) as [[] | e]; reflexivity.
Qed.

Lemma forward_effects_sends (env : Env) sock msg sessionId w response :
  env (calls w) _ (AxiosPost (LARAVEL_URL +:+ "/api/webhook/wa/incoming-message")
                     (incoming_payload sessionId msg) None) = Ok response ->
  sends (forward_effects env sock msg sessionId w)
  = if truthy (get_field "reply" (data response))
    then [(sock, remoteJid (key msg),
           VObj [("text", get_field "reply" (data response))])]
    else [].
Proof.
  intros H. unfold forward_effects. cbv zeta. rewrite H.
  destruct (truthy (get_field "reply" (data response))); [ | reflexivity ].
  destruct (env (S (calls w)) unit _) as [[] | e]; reflexivity.
Qed.

Lemma messageText_cases msg :
  let simple := chain (message msg) conversation in
  let formatted := chain (chain (message msg) extendedTextMessage) text in
  (forall c, simple = Some c -> c <> "" -> messageText msg = c)
  /\ (forall t, str_truthy simple = false -> formatted = Some t -> t <> "" ->
                messageText msg = t)
  /\ (str_truthy simple = false -> str_truthy formatted = false ->
      messageText msg = "").
Proof.
  intros simple formatted. unfold messageText. fold simple. fold formatted.
  unfold str_or. repeat split.
  - intros c -> Hc. simpl.
    destruct (String.eqb_spec c ""); [ contradiction | reflexivity ].
  - intros t -> -> Ht. simpl.
    destruct (String.eqb_spec t ""); [ contradiction | reflexivity ].
  - intros -> ->. reflexivity.
Qed.

(** C3 (as the code has it).  A batch that is not empty: the handler looks
    at its first message only.  When that message is not from the
    session's own account and has content, exactly one POST goes to the
    incoming-message endpoint of the backend, of
    [{sessionId, from: remoteJid, text}], without a timeout; otherwise
    nothing is posted.  The text is the simple-text field when it is not
    empty, else the formatted-text field when it is not empty, else the
    empty string.  The handler returns normally and the remaining messages
    of the batch are not read. *)
Theorem first_message_forwarded (env : Env) sessionId sock m msg rest w :
  messages m = msg :: rest ->
  let w' := snd (run env (messages_upsert_handler sessionId sock m) w) in
  let simple := chain (message msg) conversation in
  let formatted := chain (chain (message msg) extendedTextMessage) text in
  fst (run env (messages_upsert_handler sessionId sock m) w) = Ok tt
  /\ posts (new_trace w w')
     = (if negb (fromMe (key msg)) && bool_decide (is_Some (message msg))
        then [(LARAVEL_URL +:+ "/api/webhook/wa/incoming-message",
               VObj [("sessionId", VStr sessionId);
                     ("from", VStr (remoteJid (key msg)));
                     ("text", VStr (messageText msg))],
               None)]
        else [])
  /\ (forall c, simple = Some c -> c <> "" -> messageText msg = c)
  /\ (forall t, str_truthy simple = false -> formatted = Some t -> t <> "" ->
                messageText msg = t)
  /\ (str_truthy simple = false -> str_truthy formatted = false ->
      messageText msg = "").
Proof.
  intros Hm w' simple formatted. subst w'.
  unfold messages_upsert_handler. rewrite Hm.
  split; [ | split; [ | apply messageText_cases ] ];
    destruct (negb (fromMe (key msg)) && bool_decide (is_Some (message msg))).
  - apply forwardToLaravel_run.
  - reflexivity.
  - destruct (forwardToLaravel_run env sock msg sessionId w) as (_ & Ht & _).
    rewrite (new_trace_app _ _ _ Ht). apply forward_effects_posts.
  - cbn [run snd]. now rewrite new_trace_refl.
Qed.

Lemma forward_effects_rejected (env : Env) sock msg sessionId w e :
  env (calls w) _ (AxiosPost (LARAVEL_URL +:+ "/api/webhook/wa/incoming-message")
                     (incoming_payload sessionId msg) None) = Fail e ->
  sends (forward_effects env sock msg sessionId w) = [].
Proof. intros H. unfold forward_effects. cbv zeta. now rewrite H. Qed.

(** C9 (as the code has it).  A message forwarded to the backend: the
    handler returns normally.  When the POST resolves (axios resolves on
    a 2xx answer only) and the [reply] of the response body is truthy (a
    string that is not empty, for one), [sock.sendMessage] is called
    exactly once, with the sender of the message and [{text: reply}];
    when the body has no [reply], or a falsy one, nothing is sent; and
    when the POST is rejected (no answer, or an answer that is not 2xx,
    whatever it carries) nothing is sent either. *)
Theorem reply_sent_back (env : Env) sock msg sessionId w :
  let w' := snd (run env (forwardToLaravel sock msg sessionId) w) in
  let post :=
    AxiosPost (LARAVEL_URL +:+ "/api/webhook/wa/incoming-message")
      (VObj [("sessionId", VStr sessionId);
             ("from", VStr (remoteJid (key msg)));
             ("text", VStr (messageText msg))])
      None in
  fst (run env (forwardToLaravel sock msg sessionId) w) = Ok tt
  /\ (forall response,
        env (calls w) _ post = Ok response ->
        let reply := get_field "reply" (data response) in
        (truthy reply = true ->
         sends (new_trace w w')
         = [(sock, remoteJid (key msg), VObj [("text", reply)])])
        /\ (truthy reply = false -> sends (new_trace w w') = [])
        /\ (reply = VUndefined -> sends (new_trace w w') = []))
  /\ (forall e, env (calls w) _ post = Fail e -> sends (new_trace w w') = []).
Proof.
  intros w' post. subst w' post.
  destruct (forwardToLaravel_run env sock msg sessionId w) as (Hr & Ht & _).
  rewrite (new_trace_app _ _ _ Ht).
  split; [ exact Hr | ]. split.
  - intros response H reply.
    rewrite (forward_effects_sends env sock msg sessionId w response H).
    fold reply. repeat split; intros E; rewrite ?E; reflexivity.
  - intros e H. exact (forward_effects_rejected env sock msg sessionId w e H).
Qed.

(** ** POST /bot/destroy *)

Lemma bot_destroy_run (env : Env) sid w :
  sid <> "" ->
  fst (run env (bot_destroy (Some sid)) w) = Ok tt
  /\ activeSessions (snd (run env (bot_destroy (Some sid)) w))
     = delete sid (activeSessions w)
  /\ exists l,
       trace (snd (run env (bot_destroy (Some sid)) w)) = trace w ++ l
       /\ responses l = [destroyed_response sid]
       /\ removals l = [("./sessions/" +:+ sid, true, true)].
Proof.
  intros Hsid. unfold bot_destroy, str_truthy.
  destruct (String.eqb_spec sid "") as [ | _]; [ contradiction | ].
  cbn [negb]. exec.
  destruct (activeSessions w !! sid) as [s | ] eqn:Hget; exec.
  - destruct (env (calls w) unit (SockLogout s)) as [[] | e]; exec;
      destruct (env (S (calls w)) unit _) as [[] | e']; exec;
      (split; [ reflexivity | split; [ reflexivity | ] ]);
      eexists; (split; [ rewrite <- !app_assoc; reflexivity | ]);
      split; reflexivity.
  - rewrite (delete_id _ _ Hget).
    destruct (env (calls w) unit _) as [[] | e']; exec;
      (split; [ reflexivity | split; [ reflexivity | ] ]);
      eexists; (split; [ rewrite <- !app_assoc; reflexivity | ]);
      split; reflexivity.
Qed.


(** ** The trace is write-only *)

Lemma perform_same_state (env : Env) {X} (op : Op X) w1 w2 :
  same_state w1 w2 ->
  fst (perform env op w1) = fst (perform env op w2)
  /\ same_state (snd (perform env op w1)) (snd (perform env op w2))
  /\ trace (snd (perform env op w1)) = trace w1
  /\ trace (snd (perform env op w2)) = trace w2.
Proof.
  destruct w1, w2. unfold same_state. simpl.
  intros (-> & -> & -> & -> & ->).
  destruct op; simpl; auto 10.
  all: unfold has; simpl; auto 10.
  destruct (env _ unit _) as [[] | e]; simpl; auto 10.
Qed.

Lemma run_same_state {A} (env : Env) (p : Prog A) w1 w2 :
  same_state w1 w2 ->
  exists l,
    fst (run env p w1) = fst (run env p w2)
    /\ same_state (snd (run env p w1)) (snd (run env p w2))
    /\ trace (snd (run env p w1)) = trace w1 ++ l
    /\ trace (snd (run env p w2)) = trace w2 ++ l.
Proof.
  revert w1 w2. induction p as [a | e | X op k IH]; intros w1 w2 Hs.
  - exists []. simpl. rewrite !app_nil_r. auto.
  - exists []. simpl. rewrite !app_nil_r. auto.
  - simpl. unfold handle.
    destruct (perform_same_state env op w1 w2 Hs) as (Hr & Hs' & Ht1 & Ht2).
    destruct (perform env op w1) as [r1 v1], (perform env op w2) as [r2 v2].
    simpl in Hr, Hs', Ht1, Ht2. subst r2.
    destruct (IH r1 (record (Did op r1) v1) (record (Did op r1) v2))
      as (l & H1 & H2 & H3 & H4).
    { destruct Hs' as (? & ? & ? & ? & ?). repeat split; assumption. }
    exists (Did op r1 :: l). simpl in H3, H4.
    rewrite H3, H4, Ht1, Ht2, <- !app_assoc. auto.
Qed.

Lemma run_trace {A} (env : Env) (p : Prog A) w :
  trace (snd (run env p w)) = trace w ++ new_trace w (snd (run env p w)).
Proof.
  destruct (run_same_state env p w w) as (l & _ & _ & H & _).
  { repeat split. }
  now rewrite (new_trace_app _ _ _ H).
Qed.

Lemma new_trace_trans w1 w2 w3 :
  trace w2 = trace w1 ++ new_trace w1 w2 ->
  trace w3 = trace w2 ++ new_trace w2 w3 ->
  new_trace w1 w3 = new_trace w1 w2 ++ new_trace w2 w3.
Proof.
  intros H12 H23. apply new_trace_app.
  remember (new_trace w1 w2) as a eqn:Ea. remember (new_trace w2 w3) as b eqn:Eb.
  clear Ea Eb. now rewrite H23, H12, <- app_assoc.
Qed.

(** ** createBotSession *)

Lemma createBotSession_try_run (env : Env) sid w :
  exists l,
    trace (snd (run env (createBotSession_try sid) w)) = trace w ++ l
    /\ posts l = [] /\ responses l = []
    /\ timers (snd (run env (createBotSession_try sid) w)) = timers w
    /\ match fst (run env (createBotSession_try sid) w) with
       | Fail _ =>
           activeSessions (snd (run env (createBotSession_try sid) w))
           = activeSessions w
       | Ok r =>
           exists sock,
             r = Some sock
             /\ activeSessions (snd (run env (createBotSession_try sid) w))
                = <[sid := sock]> (activeSessions w)
       end.
Proof.
  unfold createBotSession_try. exec.
  destruct (env (calls w) MultiFileAuthState _) as [auth | e]; exec;
    [ | eexists; repeat split; try (rewrite <- ?app_assoc; reflexivity) ].
  destruct (env (S (calls w)) (list Z) _) as [version | e]; exec;
    [ | eexists; repeat split; try (rewrite <- ?app_assoc; reflexivity) ].
  destruct (env (S (S (calls w))) WASocket _) as [sock | e]; exec;
    [ | eexists; repeat split; try (rewrite <- ?app_assoc; reflexivity) ].
  destruct (env (S (S (S (calls w)))) unit _) as [[] | e]; exec;
    [ | eexists; repeat split; try (rewrite <- ?app_assoc; reflexivity) ].
  destruct (env (S (S (S (S (calls w))))) unit _) as [[] | e]; exec;
    [ | eexists; repeat split; try (rewrite <- ?app_assoc; reflexivity) ].
  destruct (env (S (S (S (S (S (calls w)))))) unit _) as [[] | e]; exec;
    [ | eexists; repeat split; try (rewrite <- ?app_assoc; reflexivity) ].
  eexists. split; [ rewrite <- !app_assoc; reflexivity | ].
  split; [ reflexivity | ]. split; [ reflexivity | ]. split; [ reflexivity | ].
  exists sock. auto.
Qed.

Lemma createBotSession_run (env : Env) sid w :
  run env (createBotSession sid) w =
  match run env (createBotSession_try sid) w with
  | (Ok r, w1) => (Ok r, w1)
  | (Fail e, w1) =>
      (Ok None,
       after_webhook env "/api/webhook/wa/connection-update"
         (disconnected_payload sid) (record (creation_failed_log sid e) w1))
  end.
Proof.
  unfold createBotSession. rewrite run_try_catch.
  destruct (run env (createBotSession_try sid) w) as [[r | e] w1];
    [ reflexivity | ].
  exec. rewrite sendWebhook_run. reflexivity.
Qed.

Lemma createBotSession_total (env : Env) sid w :
  exists r, fst (run env (createBotSession sid) w) = Ok r.
Proof.
  rewrite createBotSession_run.
  destruct (run env (createBotSession_try sid) w) as [[r | e] w1]; eauto.
Qed.

Lemma webhook_effects_responses env endpoint data w :
  responses (webhook_effects env endpoint data w) = [].
Proof.
  unfold webhook_effects.
  destruct (env (calls w) Response _) as [r | e]; reflexivity.
Qed.

Lemma responses_app l1 l2 : responses (l1 ++ l2) = responses l1 ++ responses l2.
Proof. apply flat_map_app. Qed.


(** ** POST /bot/create *)

Lemma bot_create_run (env : Env) sid w :
  sid <> "" ->
  activeSessions w !! sid = None ->
  run env (bot_create (Some sid)) w
  = (Ok tt,
     record (Did (ResJson 200
                    (VObj [("message", VStr "Bot session creation initiated");
                           ("sessionId", VStr sid)])) (Ok tt))
       (snd (run env (createBotSession sid) (before_creation sid w)))).
Proof.
  intros Hsid Habs. unfold bot_create, str_truthy.
  destruct (String.eqb_spec sid "") as [ | _]; [ contradiction | ].
  assert (Hh : has sid w = false) by (unfold has; now rewrite Habs).
  cbn [negb]. exec. rewrite Hh. exec. fold (before_creation sid w).
  destruct (createBotSession_total env sid (before_creation sid w)) as (r & Hr).
  destruct (run env (createBotSession sid) (before_creation sid w))
    as [[r' | e] w1]; simpl in Hr; [ | discriminate ].
  exec. reflexivity.
Qed.




Lemma createBotSession_try_ok (env : Env) sid w sock :
  fst (run env (createBotSession_try sid) w) = Ok (Some sock) ->
  exists auth version,
    env (calls w) _ (UseMultiFileAuthState ("./sessions/" +:+ sid)) = Ok auth
    /\ env (S (calls w)) _ FetchLatestBaileysVersion = Ok version
    /\ env (S (S (calls w))) _ (MakeWASocket version (state auth)) = Ok sock
    /\ env (S (S (S (calls w)))) _
         (EvOn sock connection_update (on_connection_update sid sock)) = Ok tt
    /\ env (S (S (S (S (calls w))))) _
         (EvOn sock creds_update (on_creds_update (saveCreds auth))) = Ok tt
    /\ env (S (S (S (S (S (calls w)))))) _
         (EvOn sock messages_upsert (on_messages_upsert sid sock)) = Ok tt.
Proof.
  unfold createBotSession_try. exec.
  destruct (env (calls w) MultiFileAuthState _) as [auth | e] eqn:E1; exec;
    [ | discriminate ].
  destruct (env (S (calls w)) (list Z) _) as [version | e] eqn:E2; exec;
    [ | discriminate ].
  destruct (env (S (S (calls w))) WASocket _) as [s | e] eqn:E3; exec;
    [ | discriminate ].
  destruct (env (S (S (S (calls w)))) unit _) as [[] | e] eqn:E4; exec;
    [ | discriminate ].
  destruct (env (S (S (S (S (calls w))))) unit _) as [[] | e] eqn:E5; exec;
    [ | discriminate ].
  destruct (env (S (S (S (S (S (calls w)))))) unit _) as [[] | e] eqn:E6; exec;
    [ | discriminate ].
  intros [= <-]. exists auth, version. auto 10.
Qed.

(** C2 (as the code has it).  [createBotSession] for a session that is not
    registered, when its setup succeeds with the socket [sock]: it returns
    [sock], and the registry gains exactly one entry, from the session id
    to [sock] (the socket itself; no lifecycle state is stored).  The entry
    is not made in the tick of the call: at the first pending promise (the
    credential load) and at the second (the version fetch) the registry is
    as it was; it is made once the version fetch has completed. *)
Theorem createBotSession_registers (env : Env) sid w sock :
  fst (run env (createBotSession_try sid) w) = Ok (Some sock) ->
  activeSessions w !! sid = None ->
  let w' := snd (run env (createBotSession sid) w) in
  let at_tick n := run_until env n (createBotSession sid) w in
  fst (run env (createBotSession sid) w) = Ok (Some sock)
  /\ activeSessions w' = <[sid := sock]> (activeSessions w)
  /\ size (activeSessions w') = S (size (activeSessions w))
  /\ (exists k, fst (at_tick 0%nat)
                = Awaiting (UseMultiFileAuthState ("./sessions/" +:+ sid)) k)
  /\ activeSessions (snd (at_tick 0%nat)) = activeSessions w
  /\ (exists k, fst (at_tick 1%nat) = Awaiting FetchLatestBaileysVersion k)
  /\ activeSessions (snd (at_tick 1%nat)) = activeSessions w
  /\ fst (at_tick 2%nat) = Finished (Ok (Some sock))
  /\ activeSessions (snd (at_tick 2%nat)) = <[sid := sock]> (activeSessions w).
Proof.
  intros Hok Habs w' at_tick. subst w' at_tick.
  destruct (createBotSession_try_ok env sid w sock Hok)
    as (auth & version & E1 & E2 & E3 & E4 & E5 & E6).
  destruct (createBotSession_try_run env sid w) as (_ & _ & _ & _ & _ & Ha).
  rewrite createBotSession_run.
  destruct (run env (createBotSession_try sid) w) as [[r | e] w1];
    simpl in Hok; [ | discriminate ].
  injection Hok as ->. simpl in Ha. destruct Ha as (s & [= <-] & Ha).
  cbn [fst snd]. rewrite Ha.
  split; [ reflexivity | ]. split; [ reflexivity | ].
  split; [ now apply map_size_insert_None | ].
  unfold createBotSession, createBotSession_try.
  cbn [run_until try_catch bind call is_async].
  split; [ eauto | ]. split; [ reflexivity | ].
  unfold handle. proj. rewrite E1.
  cbn [run_until try_catch bind call is_async].
  split; [ eauto | ]. split; [ reflexivity | ].
  unfold handle. proj. rewrite E2.
  cbn [run_until try_catch bind call is_async]. unfold handle. proj. rewrite E3.
  cbn [run_until try_catch bind call is_async]. unfold handle. proj. rewrite E4.
  cbn [run_until try_catch bind call is_async]. unfold handle. proj. rewrite E5.
  cbn [run_until try_catch bind call is_async]. unfold handle. proj. rewrite E6.
  cbn [run_until try_catch bind call is_async]. unfold handle. proj.
  split; reflexivity.
Qed.

(** ** What a program can do: footprints *)

Lemma all_ops_bind {A B} P (p : Prog A) (f : A -> Prog B) :
  all_ops P p -> (forall a, all_ops P (f a)) -> all_ops P (bind p f).
Proof.
  intros Hp Hf. induction Hp as [a | e | X op k HP _ IH]; simpl.
  - apply Hf.
  - constructor.
  - constructor; assumption.
Qed.

Lemma all_ops_try_catch {A} P (p : Prog A) (h : Err -> Prog A) :
  all_ops P p -> (forall e, all_ops P (h e)) -> all_ops P (try_catch p h).
Proof.
  intros Hp Hh. induction Hp as [a | e | X op k HP _ IH]; simpl.
  - constructor.
  - apply Hh.
  - constructor; assumption.
Qed.

Lemma all_ops_call {X} (P : forall X, Op X -> Prop) (op : Op X) :
  P X op -> all_ops P (call op).
Proof.
  intros HP. unfold call. constructor; [ exact HP | ].
  intros [x | e]; constructor.
Qed.

Lemma run_preserves {A} (env : Env) (P : forall X, Op X -> Prop)
    (I : World -> Prop) (p : Prog A) :
  (forall X (op : Op X) w, P X op -> I w -> I (snd (handle env op w))) ->
  all_ops P p ->
  forall w, I w -> I (snd (run env p w)).
Proof.
  intros Hstep Hp. induction Hp as [a | e | X op k HP _ IH]; intros w Hw; simpl.
  - exact Hw.
  - exact Hw.
  - specialize (Hstep X op w HP Hw).
    destruct (handle env op w) as [r w1]. apply IH, Hstep.
Qed.

(** Split a program along its binds, handlers and branches. *)
Ltac footprint :=
  repeat first
    [ apply all_Ret
    | apply all_Throw
    | apply all_ops_call
    | apply all_ops_bind; [ | intros ? ]
    | apply all_ops_try_catch; [ | intros ? ]
    | match goal with
      | |- all_ops _ (match ?x with _ => _ end) => destruct x
      end ].













(** ** Invariants of the event loop *)

Lemma perform_trace (env : Env) {X} (op : Op X) w :
  trace (snd (perform env op w)) = trace w.
Proof.
  destruct (perform_same_state env op w w) as (_ & _ & H & _);
    [ repeat split | exact H ].
Qed.


Lemma handle_snd (env : Env) {X} (op : Op X) w :
  snd (handle env op w)
  = record (Did op (fst (perform env op w))) (snd (perform env op w)).
Proof. unfold handle. now destruct (perform env op w). Qed.

Lemma Forall_filter_keep {T} (P : T -> Prop) f (l : list T) :
  Forall P l -> Forall P (List.filter f l).
Proof.
  intros H. apply List.Forall_forall. intros x Hx.
  apply filter_In in Hx as (Hx & _).
  rewrite List.Forall_forall in H. now apply H.
Qed.

Lemma find_filter_none t (l : list Timer) :
  List.find (fun x => Nat.eqb (timer_id x) t)
    (List.filter (fun x => negb (Nat.eqb (timer_id x) t)) l) = None.
Proof.
  induction l as [ | x l IH]; simpl; [ reflexivity | ].
  destruct (Nat.eqb (timer_id x) t) eqn:E; simpl; [ exact IH | ].
  now rewrite E.
Qed.




Lemma find_app_some {T} f (l1 l2 : list T) x :
  List.find f l1 = Some x -> List.find f (l1 ++ l2) = Some x.
Proof.
  induction l1 as [ | y l1 IH]; simpl; [ discriminate | ].
  destruct (f y); [ trivial | exact IH ].
Qed.








(** ** Timers *)










(** A timer that was cancelled is never live again. *)
Lemma all_ops_any {A} (p : Prog A) : all_ops any_op p.
Proof. induction p; constructor; auto. exact I. Qed.






(** ** The heartbeat tick *)





(** * More of server.js *)

(** ** POST /bot/create and POST /bot/destroy: every path *)

(** The trace of a world built by recorded operations, as an extension. *)
Ltac added :=
  cbn [trace record outside add_timer drop_timer add_listener
       set_activeSessions];
  rewrite <- ?app_assoc; reflexivity.

Lemma loads_app l1 l2 : loads (l1 ++ l2) = loads l1 ++ loads l2.
Proof. apply flat_map_app. Qed.

Lemma logouts_app l1 l2 : logouts (l1 ++ l2) = logouts l1 ++ logouts l2.
Proof. apply flat_map_app. Qed.

Lemma webhook_effects_loads env endpoint data w :
  loads (webhook_effects env endpoint data w) = [].
Proof.
  unfold webhook_effects.
  destruct (env (calls w) Response _) as [r | e]; reflexivity.
Qed.

(** What the body of the [try] adds to the trace: one credential load, of
    the folder of the session, and no HTTP response. *)
Lemma createBotSession_try_loads (env : Env) sid w :
  exists l,
    trace (snd (run env (createBotSession_try sid) w)) = trace w ++ l
    /\ loads l = ["./sessions/" +:+ sid]
    /\ next_timer (snd (run env (createBotSession_try sid) w)) = next_timer w.
Proof.
  unfold createBotSession_try. exec.
  destruct (env (calls w) MultiFileAuthState _) as [auth | e]; exec;
    [ | eexists; repeat split; try (rewrite <- ?app_assoc; reflexivity) ].
  destruct (env (S (calls w)) (list Z) _) as [version | e]; exec;
    [ | eexists; repeat split; try (rewrite <- ?app_assoc; reflexivity) ].
  destruct (env (S (S (calls w))) WASocket _) as [sock | e]; exec;
    [ | eexists; repeat split; try (rewrite <- ?app_assoc; reflexivity) ].
  destruct (env (S (S (S (calls w)))) unit _) as [[] | e]; exec;
    [ | eexists; repeat split; try (rewrite <- ?app_assoc; reflexivity) ].
  destruct (env (S (S (S (S (calls w))))) unit _) as [[] | e]; exec;
    [ | eexists; repeat split; try (rewrite <- ?app_assoc; reflexivity) ].
  destruct (env (S (S (S (S (S (calls w)))))) unit _) as [[] | e]; exec;
    eexists; repeat split; try (rewrite <- ?app_assoc; reflexivity).
Qed.

(** [createBotSession], whatever happens: it returns normally, gives no
    HTTP response, loads the credentials of its session once and leaves
    the timers alone. *)
Lemma createBotSession_effects (env : Env) sid w :
  exists r l,
    fst (run env (createBotSession sid) w) = Ok r
    /\ trace (snd (run env (createBotSession sid) w)) = trace w ++ l
    /\ responses l = []
    /\ loads l = ["./sessions/" +:+ sid]
    /\ timers (snd (run env (createBotSession sid) w)) = timers w.
Proof.
  rewrite createBotSession_run.
  destruct (createBotSession_try_run env sid w)
    as (l & Ht & _ & Hr & Htim & _).
  destruct (createBotSession_try_loads env sid w) as (l' & Ht' & Hl & _).
  assert (l' = l) by (rewrite Ht in Ht'; now apply app_inv_head in Ht').
  subst l'.
  destruct (run env (createBotSession_try sid) w) as [[r | e] w1];
    cbn [fst snd] in *.
  - exists r, l. auto.
  - exists None. eexists. split; [ reflexivity | ].
    rewrite after_webhook_trace. cbn [trace record]. rewrite Ht.
    split; [ rewrite <- !app_assoc; reflexivity | ].
    rewrite !responses_app, !loads_app, Hr, Hl, webhook_effects_responses,
      webhook_effects_loads.
    destruct (after_webhook_state env "/api/webhook/wa/connection-update"
                (disconnected_payload sid) (record (creation_failed_log sid e) w1))
      as (_ & H & _).
    rewrite H. auto.
Qed.

(** X1.  [POST /bot/create] without a session id (none, or the empty
    string), or with an id that is registered, is answered 400 and does
    nothing else: no outside call is made, and the registry, the timers
    and the listeners are as they were. *)
Theorem bot_create_rejects (env : Env) o w :
  str_truthy o = false
  \/ (exists sid, o = Some sid /\ is_Some (activeSessions w !! sid)) ->
  let w' := snd (run env (bot_create o) w) in
  fst (run env (bot_create o) w) = Ok tt
  /\ responses (new_trace w w')
     = [(400, VObj [("error",
                     VStr (if str_truthy o then "Session already exists"
                           else "Session ID required"))])]
  /\ loads (new_trace w w') = []
  /\ same_state w' w.
Proof.
  intros H w'. subst w'. unfold bot_create.
  destruct o as [sid | ]; [ | exec ].
  - destruct (str_truthy (Some sid)) eqn:E; cbn [negb].
    + destruct H as [H | (sid' & [= <-] & [s Hs])]; [ discriminate | ].
      assert (Hh : has sid w = true) by (unfold has; now rewrite Hs).
      exec. rewrite Hh. exec.
      erewrite new_trace_app; [ | added ].
      repeat split.
    + exec. erewrite new_trace_app; [ | added ]. repeat split.
  - erewrite new_trace_app; [ | added ]. repeat split.
Qed.

(** X2.  Every request to [POST /bot/create] and to [POST /bot/destroy]
    is answered exactly once and its handler returns normally, whatever
    the body holds, whatever is registered and whatever the libraries,
    the network and the disk do. *)
Theorem one_response_per_request (env : Env) o w :
  (fst (run env (bot_create o) w) = Ok tt
   /\ length (responses (new_trace w (snd (run env (bot_create o) w)))) = 1%nat)
  /\ (fst (run env (bot_destroy o) w) = Ok tt
      /\ length (responses (new_trace w (snd (run env (bot_destroy o) w))))
         = 1%nat).
Proof.
  split.
  - destruct (str_truthy o) eqn:E.
    + destruct o as [sid | ]; [ | discriminate ].
      assert (Hsid : sid <> "").
      { intros ->. discriminate. }
      destruct (activeSessions w !! sid) as [s | ] eqn:Hs.
      * destruct (bot_create_rejects env (Some sid) w) as (H1 & H2 & _).
        { right. exists sid. split; [ reflexivity | now exists s ]. }
        split; [ exact H1 | ]. now rewrite H2.
      * rewrite (bot_create_run env sid w Hsid Hs). cbn [fst snd].
        split; [ reflexivity | ].
        destruct (createBotSession_effects env sid (before_creation sid w))
          as (r & l & _ & Ht & Hr & _).
        erewrite new_trace_app;
          [ | cbn [trace record]; rewrite Ht; unfold before_creation;
              cbn [trace record]; rewrite <- !app_assoc; reflexivity ].
        rewrite !responses_app, Hr. reflexivity.
    + destruct (bot_create_rejects env o w (or_introl E)) as (H1 & H2 & _).
      split; [ exact H1 | ]. now rewrite H2.
  - destruct (str_truthy o) eqn:E.
    + destruct o as [sid | ]; [ | discriminate ].
      assert (Hsid : sid <> "").
      { intros ->. discriminate. }
      destruct (bot_destroy_run env sid w Hsid) as (H1 & _ & l & Ht & Hr & _).
      split; [ exact H1 | ].
      now rewrite (new_trace_app _ _ _ Ht), Hr.
    + unfold bot_destroy. destruct o as [sid | ].
      * rewrite E. cbn [negb]. exec.
        erewrite new_trace_app; [ | added ]. split; reflexivity.
      * exec. erewrite new_trace_app; [ | added ]. split; reflexivity.
Qed.

Lemma bot_destroy_footprint (env : Env) sid w :
  sid <> "" ->
  timers (snd (run env (bot_destroy (Some sid)) w)) = timers w
  /\ next_timer (snd (run env (bot_destroy (Some sid)) w)) = next_timer w
  /\ listeners (snd (run env (bot_destroy (Some sid)) w)) = listeners w
  /\ exists l,
       trace (snd (run env (bot_destroy (Some sid)) w)) = trace w ++ l
       /\ posts l = []
       /\ logouts l = match activeSessions w !! sid with
                      | Some s => [s]
                      | None => []
                      end.
Proof.
  intros Hsid. unfold bot_destroy, str_truthy.
  destruct (String.eqb_spec sid "") as [ | _]; [ contradiction | ].
  cbn [negb]. exec.
  destruct (activeSessions w !! sid) as [s | ] eqn:Hget; exec.
  - destruct (env (calls w) unit (SockLogout s)) as [[] | e]; exec;
      destruct (env (S (calls w)) unit _) as [[] | e']; exec;
      (repeat (split; [ reflexivity | ]));
      eexists; (split; [ rewrite <- !app_assoc; reflexivity | ]);
      split; reflexivity.
  - destruct (env (calls w) unit _) as [[] | e']; exec;
      (repeat (split; [ reflexivity | ]));
      eexists; (split; [ rewrite <- !app_assoc; reflexivity | ]);
      split; reflexivity.
Qed.

(** X3.  [POST /bot/destroy] touches one session only: the entries of all
    other sessions, every timer (a heartbeat interval, a pending
    reconnection) and every listener are as they were; [sock.logout] is
    called once when the session was registered and never otherwise; and
    the backend is not told: nothing is posted. *)
Theorem destroy_touches_one_session (env : Env) sid w :
  sid <> "" ->
  let w' := snd (run env (bot_destroy (Some sid)) w) in
  (forall k, k <> sid -> activeSessions w' !! k = activeSessions w !! k)
  /\ timers w' = timers w
  /\ listeners w' = listeners w
  /\ posts (new_trace w w') = []
  /\ (forall s, activeSessions w !! sid = Some s ->
                logouts (new_trace w w') = [s])
  /\ (activeSessions w !! sid = None -> logouts (new_trace w w') = []).
Proof.
  intros Hsid w'. subst w'.
  destruct (bot_destroy_run env sid w Hsid) as (_ & Ha & _).
  destruct (bot_destroy_footprint env sid w Hsid)
    as (Ht & _ & Hl & l & Htr & Hp & Hlo).
  rewrite (new_trace_app _ _ _ Htr), Ha, Hp, Hlo.
  split; [ intros k Hk; now apply lookup_delete_ne | ].
  repeat split; trivial.
  - intros s ->. reflexivity.
  - intros ->. reflexivity.
Qed.

(** ** Reconnection timers *)

(** X4.  A reconnection timer fires once and is not tied to the registry:
    when it is due it is taken off the timers and [createBotSession] runs
    for its session, whether the session is still registered or was
    destroyed in between; when the setup succeeds the session is
    registered (again) with the new socket. *)
Theorem reconnection_timer_fires (env : Env) t tm sid w sock :
  find_timer t w = Some tm ->
  timer_cb tm = cb_createBotSession sid ->
  timer_repeat tm = false ->
  fst (run env (createBotSession_try sid) (drop_timer t w)) = Ok (Some sock) ->
  let w' := dispatch env (fire t) w in
  find_timer t w' = None
  /\ activeSessions w' = <[sid := sock]> (activeSessions w)
  /\ loads (new_trace w w') = ["./sessions/" +:+ sid].
Proof.
  intros Hfind Hcb Hrep Hok w'. subst w'. cbn [dispatch].
  rewrite Hfind, Hrep. unfold callback_prog. rewrite Hcb.
  rewrite run_bind.
  destruct (createBotSession_effects env sid (drop_timer t w))
    as (r & l & Hr & Ht & _ & Hl & Htim).
  destruct (createBotSession_try_run env sid (drop_timer t w))
    as (_ & _ & _ & _ & _ & Ha).
  rewrite createBotSession_run in Hr, Ht, Htim |- *.
  destruct (run env (createBotSession_try sid) (drop_timer t w))
    as [[r' | e] w1]; cbn [fst snd] in *; [ | discriminate ].
  injection Hok as ->. destruct Ha as (s & [= <-] & Ha).
  cbn [run snd]. split.
  - unfold find_timer. rewrite Htim. cbn [timers drop_timer].
    apply find_filter_none.
  - split; [ exact Ha | ].
    cbn [trace drop_timer] in Ht. now rewrite (new_trace_app _ _ _ Ht).
Qed.

(** ** The connection.update listener: its other paths *)

Lemma qr_step_run (env : Env) sid update code w :
  qr update = Some code ->
  code <> "" ->
  run env (qr_step sid update) w =
  match env (calls w) _ (QRCodeToDataURL code) with
  | Ok url =>
      (Ok tt,
       after_webhook env "/api/webhook/wa/qr-update"
         (VObj [("sessionId", VStr sid); ("qrCode", VStr url)])
         (record (Did (QRCodeToDataURL code) (Ok url)) (outside w)))
  | Fail e => (Fail e, record (Did (QRCodeToDataURL code) (Fail e)) (outside w))
  end.
Proof.
  intros Hq Hc. unfold qr_step. rewrite Hq. unfold str_truthy.
  destruct (String.eqb_spec code "") as [ | _]; [ contradiction | ].
  cbn [negb]. exec.
  destruct (env (calls w) string _) as [url | e]; exec; [ | reflexivity ].
  apply sendWebhook_run.
Qed.

(** X5.  An update that carries a pairing code and no connection state:
    when the code is encoded, exactly one POST goes to the qr-update
    endpoint, of [{sessionId, qrCode}] with the data URL the encoder
    returned; the registry and the timers are left alone. *)
Theorem qr_update_posted (env : Env) sid sock update code url w :
  qr update = Some code ->
  code <> "" ->
  connection update = None ->
  env (calls w) _ (QRCodeToDataURL code) = Ok url ->
  let w' := snd (run env (connection_update_handler sid sock update) w) in
  fst (run env (connection_update_handler sid sock update) w) = Ok tt
  /\ posts (new_trace w w')
     = [(LARAVEL_URL +:+ "/api/webhook/wa/qr-update",
         VObj [("sessionId", VStr sid); ("qrCode", VStr url)],
         Some 5000)]
  /\ activeSessions w' = activeSessions w
  /\ timers w' = timers w.
Proof.
  intros Hq Hc Hn Hu w'. subst w'.
  rewrite handler_run, (qr_step_run env sid update code w Hq Hc), Hu.
  unfold connection_step. rewrite Hn. cbn [run fst snd].
  split; [ reflexivity | ].
  erewrite new_trace_app;
    [ | rewrite after_webhook_trace; cbn [trace record outside];
        rewrite <- app_assoc; reflexivity ].
  rewrite posts_app, webhook_effects_posts.
  split; [ reflexivity | ].
  match goal with
  | |- context [after_webhook ?e ?p ?d ?x] =>
      destruct (after_webhook_state e p d x) as (Ha & Ht & _);
      rewrite Ha, Ht
  end.
  split; reflexivity.
Qed.

(** X6.  An update that carries a pairing code that cannot be encoded:
    the listener throws the encoder's error before it looks at the
    connection state.  Even when the update says [close] or [open],
    nothing is posted, no timer is set and the registry is as it was. *)
Theorem qr_failure_aborts (env : Env) sid sock update code e w :
  qr update = Some code ->
  code <> "" ->
  env (calls w) _ (QRCodeToDataURL code) = Fail e ->
  let w' := snd (run env (connection_update_handler sid sock update) w) in
  fst (run env (connection_update_handler sid sock update) w) = Fail e
  /\ posts (new_trace w w') = []
  /\ activeSessions w' = activeSessions w
  /\ timers w' = timers w.
Proof.
  intros Hq Hc Hf w'. subst w'.
  rewrite handler_run, (qr_step_run env sid update code w Hq Hc), Hf.
  cbn [fst snd]. split; [ reflexivity | ].
  erewrite new_trace_app; [ | added ].
  repeat split.
Qed.

(** X7.  An [open] event on a socket whose [user] is not set: the
    listener throws a [TypeError] when it reads [sock.user.id]; no
    webhook is posted and no heartbeat is started. *)
Theorem open_without_user (env : Env) sid sock update w :
  connection update = Some conn_open ->
  qr update = None ->
  env (calls w) _ (SockUser sock) = Ok None ->
  let w' := snd (run env (connection_update_handler sid sock update) w) in
  (exists msg,
     fst (run env (connection_update_handler sid sock update) w)
     = Fail (TypeError msg))
  /\ posts (new_trace w w') = []
  /\ timers w' = timers w
  /\ activeSessions w' = activeSessions w.
Proof.
  intros Hc Hq Hu w'. subst w'.
  rewrite handler_run. unfold qr_step. rewrite Hq. cbn [run].
  unfold connection_step. rewrite Hc. cbv iota. exec. rewrite Hu. exec.
  split; [ eexists; reflexivity | ].
  erewrite new_trace_app; [ | added ].
  repeat split.
Qed.

(** X8.  Every [open] event starts one more heartbeat interval for the
    session: [startHeartbeat] does not look for one that is running.
    After [n] such events the session has [n] more heartbeat timers. *)
Theorem open_events_accumulate (env : Env) sid sock update user n w :
  connection update = Some conn_open ->
  qr update = None ->
  (forall k, env k _ (SockUser sock) = Ok (Some user)) ->
  length (heartbeat_timers sid
            (Nat.iter n
               (fun w => snd (run env
                                (connection_update_handler sid sock update) w))
               w))
  = (length (heartbeat_timers sid w) + n)%nat.
Proof.
  intros Hc Hq Hu. induction n as [ | n IH]; simpl; [ lia | ].
  rewrite handler_run. unfold qr_step. rewrite Hq. cbn [run].
  rewrite (connection_step_open _ _ _ _ user _ Hc (Hu _)). cbn [snd].
  unfold after_open, heartbeat_timers. cbn [timers record add_timer].
  match goal with
  | |- context [after_webhook ?e ?p ?d ?x] =>
      destruct (after_webhook_state e p d x) as (_ & Ht & _); rewrite Ht
  end.
  cbn [timers record outside].
  rewrite List.filter_app, List.map_app, length_app. cbn [List.filter timer_cb].
  rewrite String.eqb_refl. simpl.
  unfold heartbeat_timers in IH. rewrite IH. lia.
Qed.

(** ** The messages.upsert listener: its other paths *)

(** X9.  A batch that is empty makes the listener throw a [TypeError]
    (it reads [key] of [undefined]); a batch whose first message is from
    the session's own account, or has no content, is dropped without a
    trace: nothing is posted, logged or sent. *)
Theorem batches_not_forwarded (env : Env) sid sock w :
  (exists msg,
     run env (messages_upsert_handler sid sock {| messages := [] |}) w
     = (Fail (TypeError msg), w))
  /\ (forall msg rest,
        fromMe (key msg) = true \/ message msg = None ->
        run env (messages_upsert_handler sid sock
                   {| messages := msg :: rest |}) w
        = (Ok tt, w)).
Proof.
  split; [ eexists; reflexivity | ].
  intros msg rest H. unfold messages_upsert_handler. cbn [messages].
  destruct H as [-> | ->]; [ reflexivity | ].
  rewrite andb_comm. reflexivity.
Qed.

Lemma sends_app l1 l2 : sends (l1 ++ l2) = sends l1 ++ sends l2.
Proof. apply flat_map_app. Qed.

(** X10.  [forwardToLaravel] never throws: whatever the backend and the
    socket do, it returns normally after exactly one POST to the
    incoming-message endpoint (without a timeout) and at most one
    [sendMessage]; when the POST fails nothing is sent; the registry and
    the timers are left alone. *)
Theorem forwardToLaravel_swallows_failures (env : Env) sock msg sid w :
  let w' := snd (run env (forwardToLaravel sock msg sid) w) in
  let post := AxiosPost (LARAVEL_URL +:+ "/api/webhook/wa/incoming-message")
                (VObj [("sessionId", VStr sid);
                       ("from", VStr (remoteJid (key msg)));
                       ("text", VStr (messageText msg))])
                None in
  fst (run env (forwardToLaravel sock msg sid) w) = Ok tt
  /\ posts (new_trace w w')
     = [(LARAVEL_URL +:+ "/api/webhook/wa/incoming-message",
         VObj [("sessionId", VStr sid);
               ("from", VStr (remoteJid (key msg)));
               ("text", VStr (messageText msg))],
         None)]
  /\ (length (sends (new_trace w w')) <= 1)%nat
  /\ (forall e, env (calls w) _ post = Fail e -> sends (new_trace w w') = [])
  /\ activeSessions w' = activeSessions w
  /\ timers w' = timers w.
Proof.
  intros w' post. subst w' post.
  destruct (forwardToLaravel_run env sock msg sid w) as (Hr & Ht & Ha & Htim).
  rewrite (new_trace_app _ _ _ Ht), forward_effects_posts.
  split; [ exact Hr | ]. split; [ reflexivity | ].
  split; [ | split; [ | split; assumption ] ].
  - unfold forward_effects, incoming_payload. cbv zeta.
    destruct (env (calls w) Response _) as [response | e]; [ | simpl; lia ].
    destruct (truthy (get_field "reply" (data response))); [ | simpl; lia ].
    destruct (env (S (calls w)) unit _) as [[] | e]; simpl; lia.
  - intros e He. unfold forward_effects, incoming_payload. cbv zeta.
    rewrite He. reflexivity.
Qed.

(** ** restoreSessions *)

Lemma restore_one_run (env : Env) s w :
  run env (restore_one s) w
  = (Ok tt,
     snd (run env (createBotSession s)
            (record (Did (LoggerInfo ("Restoring session: " +:+ s)) (Ok tt)) w))).
Proof.
  unfold restore_one. exec.
  destruct (createBotSession_total env s
              (record (Did (LoggerInfo ("Restoring session: " +:+ s)) (Ok tt)) w))
    as (r & Hr).
  destruct (run env (createBotSession s) _) as [[r' | e] w1];
    simpl in Hr; [ | discriminate ].
  reflexivity.
Qed.

Lemma for_each_restore (env : Env) ss w :
  fst (run env (for_each ss restore_one) w) = Ok tt
  /\ timers (snd (run env (for_each ss restore_one) w)) = timers w
  /\ exists l,
       trace (snd (run env (for_each ss restore_one) w)) = trace w ++ l
       /\ loads l = map (fun s => "./sessions/" +:+ s) ss.
Proof.
  revert w. induction ss as [ | s ss IH]; intros w; cbn [for_each].
  - cbn [run fst snd]. repeat split. exists []. now rewrite app_nil_r.
  - rewrite run_bind, restore_one_run.
    set (w0 := record (Did (LoggerInfo ("Restoring session: " +:+ s)) (Ok tt)) w).
    destruct (createBotSession_effects env s w0)
      as (r & l & _ & Ht & _ & Hl & Htim).
    destruct (IH (snd (run env (createBotSession s) w0)))
      as (Hr & Htim' & l' & Ht' & Hl').
    split; [ exact Hr | ]. split; [ now rewrite Htim', Htim | ].
    exists ([Did (LoggerInfo ("Restoring session: " +:+ s)) (Ok tt)] ++ l ++ l').
    rewrite Ht', Ht. subst w0. cbn [trace record].
    split; [ now rewrite <- !app_assoc | ].
    rewrite !loads_app, Hl, Hl'. reflexivity.
Qed.

(** X11.  [restoreSessions] calls [createBotSession] once for each
    directory of the listing, in the order of the listing, and for
    nothing else: plain files are skipped.  A session that fails to start
    does not stop the ones after it, and [restoreSessions] returns
    normally.  Without a sessions directory it does nothing; a listing
    that cannot be read is the one error it throws. *)
Theorem restoreSessions_visits_every_directory (env : Env) entries w :
  let w' := snd (run env (restoreSessions true (Ok entries)) w) in
  fst (run env (restoreSessions true (Ok entries)) w) = Ok tt
  /\ loads (new_trace w w')
     = map (fun d => "./sessions/" +:+ dirent_name d)
           (List.filter isDirectory entries)
  /\ timers w' = timers w
  /\ (forall listing, run env (restoreSessions false listing) w = (Ok tt, w))
  /\ (forall e, run env (restoreSessions true (Fail e)) w = (Fail e, w)).
Proof.
  intros w'. subst w'. unfold restoreSessions. cbn [negb].
  fold restore_one.
  change (fun sessionId : string =>
            call (LoggerInfo ("Restoring session: " +:+ sessionId)) ;;
            createBotSession sessionId ;; Ret tt) with restore_one.
  destruct (for_each_restore env
              (map dirent_name (List.filter isDirectory entries)) w)
    as (Hr & Htim & l & Ht & Hl).
  split; [ exact Hr | ].
  rewrite (new_trace_app _ _ _ Ht), Hl, List.map_map.
  repeat split; trivial.
Qed.

Lemma createBotSession_try_succeeds (env : Env) sid w :
  (forall n X (op : Op X), is_ok (env n X op) = true) ->
  exists sock, fst (run env (createBotSession_try sid) w) = Ok (Some sock).
Proof.
  intros Hok. unfold createBotSession_try. exec.
  pose proof (Hok (calls w) _ (UseMultiFileAuthState ("./sessions/" +:+ sid))) as H.
  destruct (env (calls w) MultiFileAuthState _) as [auth | e];
    [ clear H | discriminate ]. exec.
  pose proof (Hok (S (calls w)) _ FetchLatestBaileysVersion) as H.
  destruct (env (S (calls w)) (list Z) _) as [version | e];
    [ clear H | discriminate ]. exec.
  pose proof (Hok (S (S (calls w))) _ (MakeWASocket version (state auth))) as H.
  destruct (env (S (S (calls w))) WASocket _) as [sock | e];
    [ clear H | discriminate ]. exec.
  pose proof (Hok (S (S (S (calls w)))) _
                (EvOn sock connection_update (on_connection_update sid sock))) as H.
  destruct (env (S (S (S (calls w)))) unit _) as [[] | e];
    [ clear H | discriminate ]. exec.
  pose proof (Hok (S (S (S (S (calls w))))) _
                (EvOn sock creds_update (on_creds_update (saveCreds auth)))) as H.
  destruct (env (S (S (S (S (calls w))))) unit _) as [[] | e];
    [ clear H | discriminate ]. exec.
  pose proof (Hok (S (S (S (S (S (calls w)))))) _
                (EvOn sock messages_upsert (on_messages_upsert sid sock))) as H.
  destruct (env (S (S (S (S (S (calls w)))))) unit _) as [[] | e];
    [ clear H | discriminate ]. exec.
  eauto.
Qed.

Lemma for_each_restore_registers (env : Env) ss w :
  (forall n X (op : Op X), is_ok (env n X op) = true) ->
  forall k,
    is_Some (activeSessions (snd (run env (for_each ss restore_one) w)) !! k)
    <-> is_Some (activeSessions w !! k) \/ In k ss.
Proof.
  intros Hok. revert w. induction ss as [ | s ss IH]; intros w k; cbn [for_each].
  - cbn [run snd In]. tauto.
  - rewrite run_bind, restore_one_run.
    set (w0 := record (Did (LoggerInfo ("Restoring session: " +:+ s)) (Ok tt)) w).
    rewrite IH. rewrite createBotSession_run.
    destruct (createBotSession_try_succeeds env s w0 Hok) as (sock & Hs).
    destruct (createBotSession_try_run env s w0) as (_ & _ & _ & _ & _ & Ha).
    destruct (run env (createBotSession_try s) w0) as [[r | e] w1];
      cbn [fst snd] in *; [ | discriminate ].
    destruct Ha as (sock' & _ & Ha). rewrite Ha. subst w0.
    cbn [activeSessions record In].
    destruct (decide (s = k)) as [-> | Hne].
    + rewrite lookup_insert_eq. split; [ auto | ]. intros _. eauto.
    + rewrite lookup_insert_ne by exact Hne. tauto.
Qed.

(** X12.  When every outside call succeeds, the sessions registered after
    [restoreSessions] are the ones that were registered before and the
    directories of the listing, and no others: a plain file of the
    sessions directory does not become a session. *)
Theorem restoreSessions_registers_directories (env : Env) entries w :
  (forall n X (op : Op X), is_ok (env n X op) = true) ->
  let w' := snd (run env (restoreSessions true (Ok entries)) w) in
  forall k,
    is_Some (activeSessions w' !! k)
    <-> is_Some (activeSessions w !! k)
        \/ exists d, In d entries /\ isDirectory d = true /\ dirent_name d = k.
Proof.
  intros Hok w' k. subst w'. unfold restoreSessions. cbn [negb].
  change (fun sessionId : string =>
            call (LoggerInfo ("Restoring session: " +:+ sessionId)) ;;
            createBotSession sessionId ;; Ret tt) with restore_one.
  rewrite (for_each_restore_registers env _ w Hok k), in_map_iff.
  split; intros [H | H]; auto; right.
  - destruct H as (d & Hd & Hin). apply filter_In in Hin as (Hin & Hdir). eauto.
  - destruct H as (d & Hin & Hdir & Hd). exists d. split; [ exact Hd | ].
    apply filter_In. auto.
Qed.

(** ** Invariants of the whole service *)

Lemma run_any {A} (env : Env) (I : World -> Prop) (p : Prog A) :
  (forall X (op : Op X) w, I w -> I (snd (handle env op w))) ->
  forall w, I w -> I (snd (run env p w)).
Proof.
  intros Hstep. apply (run_preserves env any_op); [ | apply all_ops_any ].
  intros X op w _. apply Hstep.
Qed.

Lemma dispatch_preserves (env : Env) (I : World -> Prop) :
  (forall X (op : Op X) w, I w -> I (snd (handle env op w))) ->
  (forall t w, I w -> I (drop_timer t w)) ->
  forall a w, I w -> I (dispatch env a w).
Proof.
  intros Hstep Hdrop a w Hw. destruct a as [o | o | s e | t]; simpl.
  - now apply run_any.
  - now apply run_any.
  - generalize (List.filter (listens s e) (listeners w)). intros L.
    revert w Hw. induction L as [ | x L IH]; intros w Hw; simpl; [ exact Hw | ].
    apply IH. now apply run_any.
  - destruct (find_timer t w) as [tm | ]; [ | exact Hw ].
    apply run_any; [ exact Hstep | ].
    destruct (timer_repeat tm); [ exact Hw | now apply Hdrop ].
Qed.

Lemma serve_preserves (env : Env) (I : World -> Prop) :
  (forall X (op : Op X) w, I w -> I (snd (handle env op w))) ->
  (forall t w, I w -> I (drop_timer t w)) ->
  forall r w, I w -> I (serve env r w).
Proof.
  intros Hstep Hdrop r w Hw. destruct r as [a | | now | ex ls]; cbn [serve].
  - now apply dispatch_preserves.
  - now apply run_any.
  - now apply run_any.
  - now apply run_any.
Qed.

Lemma serve_all_preserves (env : Env) (I : World -> Prop) :
  (forall X (op : Op X) w, I w -> I (snd (handle env op w))) ->
  (forall t w, I w -> I (drop_timer t w)) ->
  forall l w, I w -> I (serve_all env l w).
Proof.
  intros Hstep Hdrop l. induction l as [ | r l IH]; intros w Hw; [ exact Hw | ].
  simpl. apply IH. now apply serve_preserves.
Qed.

(** ** GET /bot/sessions and GET /health *)

Lemma keys_snoc tr e :
  keys_in_order (tr ++ [e]) = keys_step (keys_in_order tr) e.
Proof. unfold keys_in_order. now rewrite fold_left_app. Qed.

Lemma existsb_eqb_In k (keys : list string) :
  existsb (String.eqb k) keys = true <-> In k keys.
Proof.
  rewrite existsb_exists. split.
  - intros (x & Hx & E). apply String.eqb_eq in E. now subst.
  - intros H. exists k. split; [ exact H | apply String.eqb_refl ].
Qed.

Lemma NoDup_snoc {T} (l : list T) x :
  List.NoDup l -> ~ In x l -> List.NoDup (l ++ [x]).
Proof.
  intros Hl Hx.
  apply List.NoDup_app; [ exact Hl | repeat constructor; intros [] | ].
  intros a Ha [<- | []]. contradiction.
Qed.

Lemma handle_listed (env : Env) {X} (op : Op X) w :
  listed w -> listed (snd (handle env op w)).
Proof.
  intros (Hnd & Hin). rewrite handle_snd. unfold listed.
  cbn [trace activeSessions record]. rewrite keys_snoc, perform_trace.
  destruct op; cbn [keys_step perform snd activeSessions set_activeSessions
                    add_timer drop_timer]; try (split; assumption).
  - destruct (existsb (String.eqb k) (keys_in_order (trace w))) eqn:E.
    + split; [ exact Hnd | ]. intros k'. rewrite Hin.
      apply existsb_eqb_In, Hin in E.
      destruct (decide (k = k')) as [<- | Hne].
      * rewrite lookup_insert_eq. split; eauto.
      * now rewrite lookup_insert_ne.
    + assert (Hk : ~ In k (keys_in_order (trace w))).
      { intros H. apply existsb_eqb_In in H. congruence. }
      split; [ now apply NoDup_snoc | ].
      intros k'. rewrite in_app_iff, Hin. cbn [In].
      destruct (decide (k = k')) as [<- | Hne].
      * rewrite lookup_insert_eq. split; eauto.
      * rewrite lookup_insert_ne by exact Hne. tauto.
  - split; [ now apply List.NoDup_filter | ].
    intros k'. rewrite filter_In, Hin.
    destruct (String.eqb_spec k' k) as [-> | Hne]; cbn [negb].
    + rewrite lookup_delete_eq. split; [ intros (_ & [=]) | intros [? [=]] ].
    + rewrite lookup_delete_ne by congruence. tauto.
  - destruct (env (calls w) unit _) as [[] | e]; split; assumption.
Qed.

Lemma reachable_listed (env : Env) history :
  listed (serve_all env history empty_world).
Proof.
  apply serve_all_preserves.
  - intros X op w. apply handle_listed.
  - intros t w H. exact H.
  - split; [ constructor | ]. intros k. cbn. rewrite lookup_empty.
    split; [ intros [] | intros [? [=]] ].
Qed.

Lemma listed_size w :
  listed w -> length (keys_in_order (trace w)) = size (activeSessions w).
Proof.
  intros (Hnd & Hin).
  rewrite <- (size_dom (D := gset string) (activeSessions w)).
  rewrite <- (size_list_to_set (C := gset string) (keys_in_order (trace w)))
    by now apply NoDup_ListNoDup.
  f_equal. apply set_eq. intros k.
  rewrite elem_of_list_to_set, list_elem_of_In, Hin, elem_of_dom. reflexivity.
Qed.

(** X13.  At any moment of the service, [GET /bot/sessions] answers 200
    with the registered session ids, each one once, in the order in which
    they were registered, and with their number as [count]; this number is
    also the [activeSessions] of [GET /health].  Neither request changes
    the registry, the timers or the listeners, or makes an outside
    call. *)
Theorem sessions_are_listed (env : Env) history now :
  let w := serve_all env history empty_world in
  let keys := keys_in_order (trace w) in
  responses (new_trace w (serve env get_bot_sessions w))
  = [(200, VObj [("sessions", VArr (map VStr keys));
                 ("count", VNum (Z.of_nat (size (activeSessions w))))])]
  /\ responses (new_trace w (serve env (get_health now) w))
     = [(200, VObj [("status", VStr "ok");
                    ("timestamp", VStr now);
                    ("activeSessions",
                     VNum (Z.of_nat (size (activeSessions w))))])]
  /\ List.NoDup keys
  /\ (forall k, In k keys <-> is_Some (activeSessions w !! k))
  /\ same_state (serve env get_bot_sessions w) w
  /\ same_state (serve env (get_health now) w) w.
Proof.
  intros w keys.
  pose proof (reachable_listed env history) as Hl. fold w in Hl.
  pose proof (listed_size w Hl) as Hsize. fold keys in Hsize.
  destruct Hl as (Hnd & Hin).
  cbn [serve]. unfold bot_sessions, health. cbv zeta. fold keys.
  rewrite !run_call. unfold handle. cbn [perform snd].
  rewrite Hsize.
  split; [ erewrite new_trace_app; [ | added ]; reflexivity | ].
  split; [ erewrite new_trace_app; [ | added ]; reflexivity | ].
  repeat split; trivial; apply Hin.
Qed.

(** ** Listeners *)

Lemma handle_listeners (env : Env) w0 {X} (op : Op X) w :
  (exists l, listeners w = listeners w0 ++ l) ->
  exists l, listeners (snd (handle env op w)) = listeners w0 ++ l.
Proof.
  intros (l & Hl). rewrite handle_snd. cbn [listeners record].
  destruct op; cbn [perform snd listeners set_activeSessions add_timer
                    drop_timer outside]; eauto.
  destruct (env (calls w) unit _) as [[] | e];
    cbn [snd listeners add_listener outside]; eauto.
  rewrite Hl, <- app_assoc. eauto.
Qed.

(** The service never takes a listener off a socket: whatever
    requests, events and timers follow, the listeners that were subscribed
    are still subscribed, in their order, also those of a socket that was
    replaced by a reconnection or whose session was destroyed. *)
Lemma listeners_are_never_removed (env : Env) history w :
  exists added, listeners (serve_all env history w) = listeners w ++ added.
Proof.
  apply (serve_all_preserves env
           (fun w' => exists l, listeners w' = listeners w ++ l)).
  - intros X op w1. apply handle_listeners.
  - intros t w1 H. exact H.
  - exists []. now rewrite app_nil_r.
Qed.

(** ** Registered sessions and their listeners *)

Lemma wired_mono w w' :
  wired w ->
  activeSessions w' = activeSessions w ->
  (forall x, In x (listeners w) -> In x (listeners w')) ->
  wired w'.
Proof.
  intros Hw Ha Hl sid sock H. rewrite Ha in H.
  destruct (Hw sid sock H) as (H1 & H2 & save & H3). eauto 10.
Qed.

Lemma handle_wired (env : Env) {X} (op : Op X) w :
  no_set X op -> wired w -> wired (snd (handle env op w)).
Proof.
  intros Hop Hw. rewrite handle_snd.
  destruct op; cbn [no_set] in Hop; try contradiction;
    try (apply (wired_mono w); [ exact Hw | reflexivity | auto ]).
  - intros sid sock H. cbn in H.
    apply lookup_delete_Some in H as (_ & H). exact (Hw sid sock H).
  - cbn [perform]. destruct (env (calls w) unit _) as [[] | e];
      (apply (wired_mono w); [ exact Hw | reflexivity | ]);
      cbn [snd listeners record add_listener outside]; intros x Hx;
      rewrite ?in_app_iff; auto.
Qed.

Lemma run_wired {A} (env : Env) (p : Prog A) w :
  all_ops no_set p -> wired w -> wired (snd (run env p w)).
Proof.
  intros Hp. apply (run_preserves env no_set); [ | exact Hp ].
  intros X op w1. apply handle_wired.
Qed.

Lemma createBotSession_try_wired (env : Env) sid w :
  wired w -> wired (snd (run env (createBotSession_try sid) w)).
Proof.
  intros Hw. unfold createBotSession_try. exec.
  assert (Hgrow : forall w', activeSessions w' = activeSessions w ->
            (forall x, In x (listeners w) -> In x (listeners w')) -> wired w').
  { intros w'. now apply wired_mono. }
  destruct (env (calls w) MultiFileAuthState _) as [auth | e]; exec;
    [ | apply Hgrow; [ reflexivity | auto ] ].
  destruct (env (S (calls w)) (list Z) _) as [version | e]; exec;
    [ | apply Hgrow; [ reflexivity | auto ] ].
  destruct (env (S (S (calls w))) WASocket _) as [sock | e]; exec;
    [ | apply Hgrow; [ reflexivity | auto ] ].
  destruct (env (S (S (S (calls w)))) unit _) as [[] | e]; exec;
    [ | apply Hgrow; [ reflexivity | auto ] ].
  destruct (env (S (S (S (S (calls w))))) unit _) as [[] | e]; exec;
    [ | apply Hgrow; [ reflexivity
                     | cbn [listeners record add_listener outside];
                       intros x Hx; rewrite ?in_app_iff; auto ] ].
  destruct (env (S (S (S (S (S (calls w)))))) unit _) as [[] | e]; exec;
    [ | apply Hgrow; [ reflexivity
                     | cbn [listeners record add_listener outside];
                       intros x Hx; rewrite ?in_app_iff; auto ] ].
  intros sid' sock' H.
  cbn [activeSessions listeners record set_activeSessions add_listener
       outside] in H |- *.
  destruct (decide (sid = sid')) as [<- | Hne].
  - rewrite lookup_insert_eq in H. injection H as <-.
    rewrite !in_app_iff. cbn [In]. split; [ auto 10 | ].
    split; [ auto 10 | ]. exists (saveCreds auth). rewrite !in_app_iff.
    cbn [In]. auto 10.
  - rewrite lookup_insert_ne in H by exact Hne.
    destruct (Hw sid' sock' H) as (H1 & H2 & save & H3).
    rewrite !in_app_iff. split; [ auto 10 | ]. split; [ auto 10 | ].
    exists save. rewrite !in_app_iff. auto 10.
Qed.

Lemma createBotSession_wired (env : Env) sid w :
  wired w -> wired (snd (run env (createBotSession sid) w)).
Proof.
  intros Hw. rewrite createBotSession_run.
  pose proof (createBotSession_try_wired env sid w Hw) as H1.
  destruct (run env (createBotSession_try sid) w) as [[r | e] w1];
    cbn [snd] in *; [ exact H1 | ].
  destruct (after_webhook_state env "/api/webhook/wa/connection-update"
              (disconnected_payload sid) (record (creation_failed_log sid e) w1))
    as (Ha & _ & _ & Hl & _).
  apply (wired_mono w1); [ exact H1 | exact Ha | ].
  rewrite Hl. auto.
Qed.

Lemma bot_create_wired (env : Env) o w :
  wired w -> wired (snd (run env (bot_create o) w)).
Proof.
  intros Hw. unfold bot_create.
  destruct o as [sid | ]; [ | apply run_wired; [ footprint; exact I | exact Hw ] ].
  destruct (negb (str_truthy (Some sid)));
    [ apply run_wired; [ footprint; exact I | exact Hw ] | ].
  exec. destruct (has sid w);
    [ apply run_wired; [ footprint; exact I | ];
      apply (wired_mono w); [ exact Hw | reflexivity | auto ] | ].
  exec.
  destruct (createBotSession_total env sid
              (record (Did (LoggerInfo ("Creating bot session: " +:+ sid)) (Ok tt))
                 (record (Did (MapHas sid) (Ok false)) w))) as (r & Hr).
  pose proof (createBotSession_wired env sid
                (record (Did (LoggerInfo ("Creating bot session: " +:+ sid)) (Ok tt))
                   (record (Did (MapHas sid) (Ok false)) w))) as Hc.
  destruct (run env (createBotSession sid) _) as [[r' | e] w1];
    cbn [fst snd] in *; [ | discriminate ].
  exec. apply (wired_mono w1); [ | reflexivity | auto ].
  apply Hc. apply (wired_mono w); [ exact Hw | reflexivity | auto ].
Qed.

Lemma callback_prog_wired (env : Env) tm w :
  wired w -> wired (snd (run env (callback_prog tm) w)).
Proof.
  intros Hw. unfold callback_prog. destruct (timer_cb tm) as [sid | sid].
  - rewrite run_bind.
    destruct (createBotSession_total env sid w) as (r & Hr).
    pose proof (createBotSession_wired env sid w Hw) as Hc.
    destruct (run env (createBotSession sid) w) as [[r' | e] w1];
      cbn [fst snd] in *; [ exact Hc | discriminate ].
  - apply run_wired; [ | exact Hw ].
    unfold heartbeat_tick. footprint; exact I.
Qed.

Lemma listener_prog_no_set l e : all_ops no_set (listener_prog l e).
Proof.
  destruct l as [s sock | save | s sock], e as [update | | m];
    cbn [listener_prog]; try apply all_Ret.
  - unfold connection_update_handler, qr_step, connection_step, startHeartbeat.
    footprint; exact I.
  - apply all_ops_call. exact I.
  - unfold messages_upsert_handler, forwardToLaravel. footprint; exact I.
Qed.

Lemma for_each_restore_wired (env : Env) ss w :
  wired w -> wired (snd (run env (for_each ss restore_one) w)).
Proof.
  revert w. induction ss as [ | s ss IH]; intros w Hw; cbn [for_each].
  - exact Hw.
  - rewrite run_bind, restore_one_run. apply IH.
    apply createBotSession_wired.
    apply (wired_mono w); [ exact Hw | reflexivity | auto ].
Qed.

Lemma serve_wired (env : Env) r w : wired w -> wired (serve env r w).
Proof.
  intros Hw. destruct r as [[o | o | s e | t] | | now | ex ls];
    cbn [serve dispatch].
  - now apply bot_create_wired.
  - apply run_wired; [ unfold bot_destroy; footprint; exact I | exact Hw ].
  - generalize (List.filter (listens s e) (listeners w)). intros L.
    revert w Hw. induction L as [ | x L IH]; intros w Hw; simpl; [ exact Hw | ].
    apply IH. apply run_wired; [ apply listener_prog_no_set | exact Hw ].
  - destruct (find_timer t w) as [tm | ]; [ | exact Hw ].
    apply callback_prog_wired.
    destruct (timer_repeat tm); [ exact Hw | ].
    apply (wired_mono w); [ exact Hw | reflexivity | auto ].
  - apply run_wired; [ unfold bot_sessions; footprint; exact I | exact Hw ].
  - apply run_wired; [ unfold health; footprint; exact I | exact Hw ].
  - unfold restoreSessions. destruct (negb ex); [ exact Hw | ].
    destruct ls as [entries | e]; [ | exact Hw ].
    change (fun sessionId : string =>
              call (LoggerInfo ("Restoring session: " +:+ sessionId)) ;;
              createBotSession sessionId ;; Ret tt) with restore_one.
    now apply for_each_restore_wired.
Qed.

(** X15.  At any moment of the service, the socket of every registered
    session carries the three listeners that [createBotSession]
    subscribes for that session (connection updates, credential updates,
    incoming messages): a session is registered only once it is wired. *)
Theorem registered_sessions_are_wired (env : Env) history sid sock :
  let w := serve_all env history empty_world in
  activeSessions w !! sid = Some sock ->
  In (sock, connection_update, on_connection_update sid sock) (listeners w)
  /\ In (sock, messages_upsert, on_messages_upsert sid sock) (listeners w)
  /\ exists save, In (sock, creds_update, on_creds_update save) (listeners w).
Proof.
  intros w. subst w.
  assert (H : forall w, wired w -> wired (serve_all env history w)).
  { induction history as [ | r l IH]; intros w Hw; [ exact Hw | ].
    simpl. apply IH. now apply serve_wired. }
  apply H. intros s k Hk. cbn in Hk. rewrite lookup_empty in Hk. discriminate.
Qed.

(** ** Timer ids *)

Lemma NoDup_map_filter {T U} (f : T -> U) g (l : list T) :
  List.NoDup (map f l) -> List.NoDup (map f (List.filter g l)).
Proof.
  induction l as [ | x l IH]; cbn [map List.filter]; intros H; [ exact H | ].
  inversion H as [ | ? ? Hx Hl]; subst.
  destruct (g x); cbn [map]; [ | now apply IH ].
  constructor; [ | now apply IH ].
  intros Hin. apply Hx. apply in_map_iff in Hin as (y & Hy & Hin).
  apply filter_In in Hin as (Hin & _). apply in_map_iff. eauto.
Qed.

Lemma add_timer_unique rep cb ms w :
  timer_ids_unique w -> timer_ids_unique (add_timer rep cb ms w).
Proof.
  intros (Hnd & Hlt). split; cbn [timers next_timer add_timer].
  - rewrite List.map_app. apply NoDup_snoc; [ exact Hnd | ].
    intros Hin. apply in_map_iff in Hin as (tm & Hid & Hin).
    rewrite List.Forall_forall in Hlt. specialize (Hlt tm Hin).
    cbn beta in Hlt. cbn [timer_id] in Hid. lia.
  - apply List.Forall_app. split.
    + eapply List.Forall_impl; [ | exact Hlt ]. intros tm H. simpl in H. lia.
    + constructor; [ simpl; lia | constructor ].
Qed.

Lemma drop_timer_unique t w : timer_ids_unique w -> timer_ids_unique (drop_timer t w).
Proof.
  intros (Hnd & Hlt). split; cbn [timers next_timer drop_timer].
  - now apply NoDup_map_filter.
  - now apply Forall_filter_keep.
Qed.

Lemma handle_timer_ids (env : Env) {X} (op : Op X) w :
  timer_ids_unique w -> timer_ids_unique (snd (handle env op w)).
Proof.
  intros Hw. rewrite handle_snd.
  assert (Hrec : forall e w', timer_ids_unique w' -> timer_ids_unique (record e w')).
  { intros e w' H. exact H. }
  apply Hrec.
  destruct op; cbn [perform snd]; trivial.
  - now apply add_timer_unique.
  - now apply add_timer_unique.
  - now apply drop_timer_unique.
  - destruct (env (calls w) unit _) as [[] | e]; exact Hw.
Qed.

Lemma unique_id_same_timer (l : list Timer) tm tm' :
  List.NoDup (map timer_id l) ->
  In tm l -> In tm' l -> timer_id tm' = timer_id tm -> tm' = tm.
Proof.
  induction l as [ | x l IH]; cbn [map In]; intros Hnd Hin Hin' Hid;
    [ contradiction | ].
  inversion Hnd as [ | ? ? Hx Hl]; subst.
  destruct Hin as [-> | Hin], Hin' as [-> | Hin']; trivial.
  - destruct Hx. rewrite <- Hid. now apply in_map.
  - destruct Hx. rewrite Hid. now apply in_map.
  - now apply IH.
Qed.

(** At any moment of the service no two live timers have the same id:
    firing or clearing a timer by its id concerns that timer and no
    other, and a heartbeat that clears itself leaves every other timer
    live. *)
Lemma timer_ids_are_unique (env : Env) history tm :
  let w := serve_all env history empty_world in
  In tm (timers w) ->
  find_timer (timer_id tm) w = Some tm
  /\ (forall tm', In tm' (timers w) -> timer_id tm' = timer_id tm -> tm' = tm)
  /\ (forall tm', In tm' (timers w) -> tm' <> tm ->
                  In tm' (timers (drop_timer (timer_id tm) w))).
Proof.
  intros w Hin.
  assert (Hu : timer_ids_unique w).
  { apply serve_all_preserves.
    - intros X op w1. apply handle_timer_ids.
    - intros t w1. apply drop_timer_unique.
    - split; constructor. }
  destruct Hu as (Hnd & _).
  assert (Hsame : forall tm', In tm' (timers w) ->
                              timer_id tm' = timer_id tm -> tm' = tm).
  { intros tm' Hin' Hid. exact (unique_id_same_timer _ _ _ Hnd Hin Hin' Hid). }
  split; [ | split; [ exact Hsame | ] ].
  - unfold find_timer.
    destruct (List.find (fun x => Nat.eqb (timer_id x) (timer_id tm)) (timers w))
      as [x | ] eqn:E.
    + apply find_some in E as (Hx & Hid). apply Nat.eqb_eq in Hid.
      now rewrite (Hsame x Hx Hid).
    + apply (find_none _ _ E) in Hin. now rewrite Nat.eqb_refl in Hin.
  - intros tm' Hin' Hne. cbn [timers drop_timer]. apply filter_In.
    split; [ exact Hin' | ].
    destruct (Nat.eqb_spec (timer_id tm') (timer_id tm)) as [Hid | ];
      [ | reflexivity ].
    destruct Hne. now apply Hsame.
Qed.

(** ** Where the outbound calls come from *)

Lemma handle_none {T} (env : Env) (obs_of : Effect -> list T)
    (P : forall X, Op X -> Prop) w0 {X} (op : Op X) w :
  (forall X (op : Op X) r, P X op -> obs_of (Did op r) = []) ->
  P X op ->
  none_since obs_of w0 w -> none_since obs_of w0 (snd (handle env op w)).
Proof.
  intros HP Hop (l & Ht & Hl). rewrite handle_snd.
  exists (l ++ [Did op (fst (perform env op w))]). cbn [trace record].
  rewrite perform_trace, Ht, <- app_assoc. split; [ reflexivity | ].
  rewrite flat_map_app, Hl. cbn [flat_map]. rewrite (HP X op _ Hop).
  reflexivity.
Qed.

Lemma run_none {T A} (env : Env) (obs_of : Effect -> list T)
    (P : forall X, Op X -> Prop) w0 (p : Prog A) w :
  (forall X (op : Op X) r, P X op -> obs_of (Did op r) = []) ->
  all_ops P p ->
  none_since obs_of w0 w -> none_since obs_of w0 (snd (run env p w)).
Proof.
  intros HP Hp. apply (run_preserves env P); [ | exact Hp ].
  intros X op w1 Hop. now apply handle_none with (P := P).
Qed.

Lemma all_ops_for_each {A} P (l : list A) (body : A -> Prog unit) :
  (forall x, all_ops P (body x)) -> all_ops P (for_each l body).
Proof.
  intros H. induction l as [ | x l IH]; cbn [for_each]; [ constructor | ].
  apply all_ops_bind; [ apply H | intros _; exact IH ].
Qed.

Lemma no_logout_obs X (op : Op X) r : no_logout X op -> logouts_of (Did op r) = [].
Proof. destruct op; simpl; trivial. contradiction. Qed.

Lemma no_send_obs X (op : Op X) r : no_send X op -> sends_of (Did op r) = [].
Proof. destruct op; simpl; trivial. contradiction. Qed.

(** The programs of server.js, and whether they log out or send. *)
Ltac whole_program :=
  unfold bot_create, bot_destroy, bot_sessions, health, restoreSessions,
    callback_prog, heartbeat_tick, connection_update_handler, qr_step,
    connection_step, startHeartbeat, messages_upsert_handler,
    forwardToLaravel, createBotSession, createBotSession_try;
  footprint; try apply all_ops_for_each; intros; footprint; try exact I.

Lemma serve_no_logout (env : Env) r w :
  (forall o, r <> action (post_bot_destroy o)) ->
  none_since logouts_of w (serve env r w).
Proof.
  intros Hr.
  assert (H0 : none_since logouts_of w w).
  { exists []. split; [ now rewrite app_nil_r | reflexivity ]. }
  destruct r as [[o | o | s e | t] | | now | ex ls]; cbn [serve dispatch].
  - apply (run_none env logouts_of no_logout); [ apply no_logout_obs | | exact H0 ].
    whole_program.
  - now destruct (Hr o).
  - generalize (List.filter (listens s e) (listeners w)). intros L.
    generalize dependent H0. generalize w at 2 4 as w1.
    induction L as [ | x L IH]; intros w1 H1; simpl; [ exact H1 | ].
    apply IH.
    apply (run_none env logouts_of no_logout); [ apply no_logout_obs | | exact H1 ].
    destruct (snd x) as [sid sock | save | sid sock], e as [update | | m];
      cbn [listener_prog]; whole_program.
  - destruct (find_timer t w) as [tm | ]; [ | exact H0 ].
    apply (run_none env logouts_of no_logout); [ apply no_logout_obs | | ].
    + destruct tm as [i rep ms [sid | sid]]; whole_program.
    + destruct (timer_repeat tm); exact H0.
  - apply (run_none env logouts_of no_logout); [ apply no_logout_obs | | exact H0 ].
    whole_program.
  - apply (run_none env logouts_of no_logout); [ apply no_logout_obs | | exact H0 ].
    whole_program.
  - apply (run_none env logouts_of no_logout); [ apply no_logout_obs | | exact H0 ].
    whole_program.
Qed.

Lemma serve_no_send (env : Env) r w :
  (forall s m, r <> action (emit s (ev_messages_upsert m))) ->
  none_since sends_of w (serve env r w).
Proof.
  intros Hr.
  assert (H0 : none_since sends_of w w).
  { exists []. split; [ now rewrite app_nil_r | reflexivity ]. }
  destruct r as [[o | o | s e | t] | | now | ex ls]; cbn [serve dispatch].
  - apply (run_none env sends_of no_send); [ apply no_send_obs | | exact H0 ].
    whole_program.
  - apply (run_none env sends_of no_send); [ apply no_send_obs | | exact H0 ].
    whole_program.
  - generalize (List.filter (listens s e) (listeners w)). intros L.
    generalize dependent H0. generalize w at 2 4 as w1.
    induction L as [ | x L IH]; intros w1 H1; simpl; [ exact H1 | ].
    apply IH.
    apply (run_none env sends_of no_send); [ apply no_send_obs | | exact H1 ].
    destruct (snd x) as [sid sock | save | sid sock], e as [update | | m];
      cbn [listener_prog]; try (now destruct (Hr s m)); whole_program.
  - destruct (find_timer t w) as [tm | ]; [ | exact H0 ].
    apply (run_none env sends_of no_send); [ apply no_send_obs | | ].
    + destruct tm as [i rep ms [sid | sid]]; whole_program.
    + destruct (timer_repeat tm); exact H0.
  - apply (run_none env sends_of no_send); [ apply no_send_obs | | exact H0 ].
    whole_program.
  - apply (run_none env sends_of no_send); [ apply no_send_obs | | exact H0 ].
    whole_program.
  - apply (run_none env sends_of no_send); [ apply no_send_obs | | exact H0 ].
    whole_program.
Qed.

(** X16.  The outbound calls on a socket have one origin each:
    [sock.logout] is called by [POST /bot/destroy] and by nothing else (a
    socket replaced by a reconnection, or closed by a remote logout, is
    never logged out), and [sock.sendMessage] is called in the handling of
    a messages.upsert event and of nothing else. *)
Theorem outbound_calls_have_one_origin (env : Env) r w :
  ((forall o, r <> action (post_bot_destroy o)) ->
   logouts (new_trace w (serve env r w)) = [])
  /\ ((forall s m, r <> action (emit s (ev_messages_upsert m))) ->
      sends (new_trace w (serve env r w)) = []).
Proof.
  split; intros Hr.
  - destruct (serve_no_logout env r w Hr) as (l & Ht & Hl).
    now rewrite (new_trace_app _ _ _ Ht).
  - destruct (serve_no_send env r w Hr) as (l & Ht & Hl).
    now rewrite (new_trace_app _ _ _ Ht).
Qed.

End Server.

(** * The service with its defaults: [LARAVEL_URL] unset, and
      [DisconnectReason.loggedOut] = 401 *)

(** C1, as the specification has it, fails: for the account id
    ["123@s.whatsapp.net"] (no [":"] in it) the [phone] that is posted is
    the whole id, not ["123"]. *)
Lemma open_event_phone_counterexample :
  let w' := snd (run (env_ok (Some alice) VNull)
                   (connection_update_handler None 401 "s1" (sock_nr 2)
                      update_open)
                   empty_world) in
  posts (trace w')
  = [("http://localhost:8000/api/webhook/wa/connection-update",
      VObj [("sessionId", VStr "s1");
            ("status", VStr "connected");
            ("phoneInfo",
             VObj [("jid", VStr "123@s.whatsapp.net");
                   ("name", VStr "Alice");
                   ("phone", VStr "123@s.whatsapp.net")])],
      Some 5000)]
  /\ ~ In ("http://localhost:8000/api/webhook/wa/connection-update",
           VObj [("sessionId", VStr "s1");
                 ("status", VStr "connected");
                 ("phoneInfo",
                  VObj [("jid", VStr "123@s.whatsapp.net");
                        ("name", VStr "Alice");
                        ("phone", VStr "123")])],
           Some 5000)
          (posts (trace w')).
Proof.
  vm_compute. split; [ reflexivity | ]. intros [H | []]. discriminate H.
Qed.

Lemma open_event_witness :
  let user := {| id := "123:45@s.whatsapp.net"; name := Some "Alice" |} in
  let env := env_ok (Some user) VNull in
  let w' := snd (run env
                   (connection_update_handler None 401 "s1" (sock_nr 2)
                      update_open)
                   empty_world) in
  posts (new_trace empty_world w')
  = [("http://localhost:8000/api/webhook/wa/connection-update",
      VObj [("sessionId", VStr "s1");
            ("status", VStr "connected");
            ("phoneInfo",
             VObj [("jid", VStr "123:45@s.whatsapp.net");
                   ("name", VStr "Alice");
                   ("phone", VStr "123")])],
      Some 5000)].
Proof.
  intros user env w'.
  destruct (open_event None 401 env "s1" (sock_nr 2) update_open user
              empty_world eq_refl eq_refl eq_refl) as (_ & H & _).
  exact H.
Defined.

(** C2, as the specification has it, fails: in the tick of the call
    [createBotSession] stops at the credential load with nothing
    registered; and when the network and the disk are down, nothing is
    registered at all. *)
Lemma createBotSession_tick_counterexample :
  let tick := run_until (env_ok (Some alice) VNull) 0
                (createBotSession None "s1") empty_world in
  let failed := run env_down (createBotSession None "s1") empty_world in
  (exists k, fst tick = Awaiting (UseMultiFileAuthState "./sessions/s1") k)
  /\ activeSessions (snd tick) !! "s1" = None
  /\ fst failed = Ok None
  /\ activeSessions (snd failed) !! "s1" = None.
Proof.
  cbv zeta. split; [ eexists; reflexivity | ].
  split; [ reflexivity | ]. split; [ reflexivity | ].
  vm_compute. reflexivity.
Qed.

Lemma createBotSession_registers_witness :
  let env := env_ok (Some alice) VNull in
  activeSessions (snd (run env (createBotSession None "s1") empty_world))
  = <["s1" := sock_nr 2]> ∅
  /\ activeSessions (snd (run_until env 1 (createBotSession None "s1")
                            empty_world)) = ∅.
Proof.
  intros env.
  destruct (createBotSession_registers None env "s1" empty_world (sock_nr 2)
              eq_refl eq_refl) as (_ & H1 & _ & _ & _ & _ & H2 & _).
  split; [ exact H1 | exact H2 ].
Defined.

(** C3, as the specification has it, fails: of a batch of two messages
    from other accounts, both with content, the second is never posted. *)
Lemma second_message_counterexample :
  let second := text_message "b@s.whatsapp.net" "two" in
  let batch :=
    {| messages := [text_message "a@s.whatsapp.net" "one"; second] |} in
  let w' := snd (run (env_ok (Some alice) VNull)
                   (messages_upsert_handler None "s1" (sock_nr 2) batch)
                   empty_world) in
  In second (messages batch)
  /\ fromMe (key second) = false
  /\ is_Some (message second)
  /\ posts (trace w')
     = [("http://localhost:8000/api/webhook/wa/incoming-message",
         VObj [("sessionId", VStr "s1");
               ("from", VStr "a@s.whatsapp.net");
               ("text", VStr "one")],
         None)]
  /\ forall timeout,
       ~ In ("http://localhost:8000/api/webhook/wa/incoming-message",
             VObj [("sessionId", VStr "s1");
                   ("from", VStr "b@s.whatsapp.net");
                   ("text", VStr "two")],
             timeout)
            (posts (trace w')).
Proof.
  cbv zeta. split; [ right; left; reflexivity | ].
  split; [ reflexivity | ]. split; [ eexists; reflexivity | ].
  split; [ reflexivity | ].
  intros timeout [H | []]. discriminate H.
Qed.

Lemma first_message_forwarded_witness :
  let batch :=
    {| messages := [text_message "a@s.whatsapp.net" "one";
                    text_message "b@s.whatsapp.net" "two"] |} in
  let w' := snd (run (env_ok (Some alice) VNull)
                   (messages_upsert_handler None "s1" (sock_nr 2) batch)
                   empty_world) in
  posts (new_trace empty_world w')
  = [("http://localhost:8000/api/webhook/wa/incoming-message",
      VObj [("sessionId", VStr "s1");
            ("from", VStr "a@s.whatsapp.net");
            ("text", VStr "one")],
      None)].
Proof.
  intros batch w'.
  destruct (first_message_forwarded None (env_ok (Some alice) VNull) "s1"
              (sock_nr 2) batch (text_message "a@s.whatsapp.net" "one")
              [text_message "b@s.whatsapp.net" "two"] empty_world eq_refl)
    as (_ & H & _).
  exact H.
Defined.

(** C4 fails on the code: after a reconnection the heartbeat timer of the
    first [open] is still live beside the one of the second [open] (the
    session never left the registry), and each of them posts a heartbeat
    of the session when it fires. *)
Theorem reconnect_leaves_two_heartbeat_timers :
  let env := env_ok (Some alice) VNull in
  let w := dispatch_all None 401 env reconnect_scenario empty_world in
  let w' := dispatch_all None 401 env [fire 0%nat; fire 2%nat] w in
  activeSessions w !! "s1" = Some (sock_nr 11)
  /\ heartbeat_timers "s1" w = [0%nat; 2%nat]
  /\ posts (new_trace w w')
     = [("http://localhost:8000/api/webhook/wa/heartbeat",
         VObj [("sessionId", VStr "s1")], Some 5000);
        ("http://localhost:8000/api/webhook/wa/heartbeat",
         VObj [("sessionId", VStr "s1")], Some 5000)]
  /\ heartbeat_timers "s1" w' = [0%nat; 2%nat].
Proof. vm_compute. repeat split. Qed.





(** C9, as the specification has it, fails: the backend answers with a
    [reply] field that holds the empty string, and nothing is sent. *)
Lemma empty_reply_counterexample :
  let backend := VObj [("reply", VStr "")] in
  let w' := snd (run (env_ok (Some alice) backend)
                   (forwardToLaravel None (sock_nr 2)
                      (text_message "a@s.whatsapp.net" "hi") "s1")
                   empty_world) in
  get_field "reply" backend = VStr ""
  /\ posts (trace w')
     = [("http://localhost:8000/api/webhook/wa/incoming-message",
         VObj [("sessionId", VStr "s1");
               ("from", VStr "a@s.whatsapp.net");
               ("text", VStr "hi")],
         None)]
  /\ sends (trace w') = [].
Proof. vm_compute. repeat split. Qed.

Lemma reply_sent_back_witness :
  let env := env_ok (Some alice) (VObj [("reply", VStr "hello")]) in
  let forwarded e :=
    snd (run e (forwardToLaravel None (sock_nr 2)
                  (text_message "a@s.whatsapp.net" "hi") "s1")
           empty_world) in
  sends (new_trace empty_world (forwarded env))
  = [(sock_nr 2, "a@s.whatsapp.net", VObj [("text", VStr "hello")])]
  /\ sends (new_trace empty_world (forwarded env_down)) = [].
Proof.
  intros env forwarded.
  destruct (reply_sent_back None env (sock_nr 2)
              (text_message "a@s.whatsapp.net" "hi") "s1" empty_world)
    as (_ & H & _).
  destruct (H {| data := VObj [("reply", VStr "hello")] |} eq_refl) as (H1 & _).
  destruct (reply_sent_back None env_down (sock_nr 2)
              (text_message "a@s.whatsapp.net" "hi") "s1" empty_world)
    as (_ & _ & H2).
  split; [ exact (H1 eq_refl) | exact (H2 (Error "ECONNREFUSED") eq_refl) ].
Defined.

(** * More of the service with its defaults *)

Lemma bot_create_rejects_witness :
  let env := env_ok (Some alice) VNull in
  let w := snd (run env (bot_create None (Some "s1")) empty_world) in
  let w' := snd (run env (bot_create None (Some "s1")) w) in
  activeSessions w !! "s1" = Some (sock_nr 2)
  /\ responses (new_trace w w')
     = [(400, VObj [("error", VStr "Session already exists")])]
  /\ same_state w' w.
Proof.
  intros env w w'.
  assert (Hreg : activeSessions w !! "s1" = Some (sock_nr 2))
    by (vm_compute; reflexivity).
  destruct (bot_create_rejects None env (Some "s1") w) as (_ & H1 & _ & H2).
  { right. exists "s1". split; [ reflexivity | ]. exists (sock_nr 2). exact Hreg. }
  split; [ exact Hreg | ]. split; [ exact H1 | exact H2 ].
Defined.

Lemma destroy_touches_one_session_witness :
  let env := env_ok (Some alice) VNull in
  let w := dispatch_all None 401 env open_scenario empty_world in
  let w' := snd (run env (bot_destroy (Some "s1")) w) in
  "s1" <> ""
  /\ timers w' = [heartbeat_timer 0 "s1"]
  /\ logouts (new_trace w w') = [sock_nr 2].
Proof.
  intros env w w'.
  assert (Hne : "s1" <> "") by discriminate.
  destruct (destroy_touches_one_session env "s1" w Hne)
    as (_ & H1 & _ & _ & H2 & _).
  split; [ exact Hne | ]. split; [ exact H1 | ].
  apply H2. vm_compute. reflexivity.
Defined.

Lemma reconnection_timer_fires_witness :
  let env := env_ok (Some alice) VNull in
  let w := dispatch_all None 401 env destroyed_while_reconnecting empty_world in
  let w' := dispatch None 401 env (fire 1%nat) w in
  activeSessions w !! "s1" = None
  /\ find_timer 1 w' = None
  /\ activeSessions w' = <["s1" := sock_nr 13]> (activeSessions w).
Proof.
  intros env w w'.
  destruct (reconnection_timer_fires None 401 env 1%nat
              {| timer_id := 1; timer_repeat := false; timer_ms := 3000;
                 timer_cb := cb_createBotSession "s1" |}
              "s1" w (sock_nr 13))
    as (H1 & H2 & _); try (vm_compute; reflexivity).
  split; [ vm_compute; reflexivity | ]. split; [ exact H1 | exact H2 ].
Defined.

Lemma qr_update_posted_witness :
  let env := env_ok (Some alice) VNull in
  let update := {| connection := None; lastDisconnect := None;
                   qr := Some "2@abc" |} in
  let w' := snd (run env (connection_update_handler None 401 "s1" (sock_nr 2)
                            update) empty_world) in
  posts (new_trace empty_world w')
  = [("http://localhost:8000/api/webhook/wa/qr-update",
      VObj [("sessionId", VStr "s1");
            ("qrCode", VStr "data:image/png;base64,2@abc")],
      Some 5000)].
Proof.
  intros env update w'.
  assert (Hne : "2@abc" <> "") by discriminate.
  destruct (qr_update_posted None 401 env "s1" (sock_nr 2) update "2@abc"
              "data:image/png;base64,2@abc" empty_world eq_refl Hne eq_refl
              eq_refl) as (_ & H & _).
  exact H.
Defined.

Lemma qr_failure_aborts_witness :
  let update := {| connection := Some conn_close; lastDisconnect := None;
                   qr := Some "2@abc" |} in
  let r := run env_down (connection_update_handler None 401 "s1" (sock_nr 2)
                           update) empty_world in
  fst r = Fail (Error "ECONNREFUSED")
  /\ posts (new_trace empty_world (snd r)) = []
  /\ timers (snd r) = [].
Proof.
  intros update r.
  assert (Hne : "2@abc" <> "") by discriminate.
  destruct (qr_failure_aborts None 401 env_down "s1" (sock_nr 2) update "2@abc"
              (Error "ECONNREFUSED") empty_world eq_refl Hne eq_refl)
    as (H1 & H2 & _ & H3).
  split; [ exact H1 | ]. split; [ exact H2 | exact H3 ].
Defined.

Lemma open_without_user_witness :
  let r := run (env_ok None VNull)
             (connection_update_handler None 401 "s1" (sock_nr 2) update_open)
             empty_world in
  (exists msg, fst r = Fail (TypeError msg))
  /\ posts (new_trace empty_world (snd r)) = []
  /\ timers (snd r) = [].
Proof.
  intros r.
  destruct (open_without_user None 401 (env_ok None VNull) "s1" (sock_nr 2)
              update_open empty_world eq_refl eq_refl eq_refl)
    as (H1 & H2 & H3 & _).
  split; [ exact H1 | ]. split; [ exact H2 | exact H3 ].
Defined.

Lemma open_events_accumulate_witness :
  let env := env_ok (Some alice) VNull in
  length (heartbeat_timers "s1"
            (Nat.iter 3
               (fun w => snd (run env
                                (connection_update_handler None 401 "s1"
                                   (sock_nr 2) update_open) w))
               empty_world))
  = 3%nat.
Proof.
  intros env.
  exact (open_events_accumulate None 401 env "s1" (sock_nr 2) update_open alice
           3 empty_world eq_refl eq_refl (fun k => eq_refl)).
Defined.

Lemma env_ok_always user backend :
  forall n X (op : Op X), is_ok (env_ok user backend n X op) = true.
Proof. intros n X op. destruct op; reflexivity. Defined.

Lemma restoreSessions_registers_directories_witness :
  let env := env_ok (Some alice) VNull in
  let w' := snd (run env (restoreSessions None true (Ok sample_entries))
                   empty_world) in
  is_Some (activeSessions w' !! "b")
  /\ ~ is_Some (activeSessions w' !! "notes.txt").
Proof.
  intros env w'.
  pose proof (restoreSessions_registers_directories None env sample_entries
                empty_world (env_ok_always (Some alice) VNull)) as H.
  split.
  - apply (H "b"). right.
    exists {| dirent_name := "b"; isDirectory := true |}.
    split; [ right; right; left; reflexivity | split; reflexivity ].
  - intros Hn. apply (H "notes.txt") in Hn.
    destruct Hn as [[x Hx] | (d & Hin & Hdir & Hname)].
    + cbn in Hx. rewrite lookup_empty in Hx. discriminate.
    + destruct Hin as [<- | [<- | [<- | []]]]; discriminate.
Defined.

Lemma registered_sessions_are_wired_witness :
  let env := env_ok (Some alice) VNull in
  let w := serve_all None 401 env (map action open_scenario) empty_world in
  activeSessions w !! "s1" = Some (sock_nr 2)
  /\ In (sock_nr 2, connection_update, on_connection_update "s1" (sock_nr 2))
        (listeners w).
Proof.
  intros env w.
  assert (Hreg : activeSessions w !! "s1" = Some (sock_nr 2))
    by (vm_compute; reflexivity).
  destruct (registered_sessions_are_wired None 401 env
              (map action open_scenario) "s1" (sock_nr 2) Hreg) as (H & _).
  split; [ exact Hreg | exact H ].
Defined.

Lemma timer_ids_are_unique_witness :
  let env := env_ok (Some alice) VNull in
  let w := serve_all None 401 env (map action reconnect_scenario) empty_world in
  In (heartbeat_timer 0 "s1") (timers w)
  /\ find_timer 0 w = Some (heartbeat_timer 0 "s1").
Proof.
  intros env w.
  assert (Hin : In (heartbeat_timer 0 "s1") (timers w))
    by (vm_compute; left; reflexivity).
  destruct (timer_ids_are_unique None 401 env (map action reconnect_scenario)
              (heartbeat_timer 0 "s1") Hin) as (H & _).
  split; [ exact Hin | exact H ].
Defined.

(** The listing follows the order of registration: ["a"] and ["b"] are
    created, ["a"] is destroyed and created again. *)
Example sessions_listing_order :
  let env := env_ok (Some alice) VNull in
  let w := serve_all None 401 env
             [action (post_bot_create (Some "a"));
              action (post_bot_create (Some "b"));
              action (post_bot_destroy (Some "a"));
              restore true (Ok sample_entries)]
             empty_world in
  responses (new_trace w (serve None 401 env get_bot_sessions w))
  = [(200, VObj [("sessions", VArr [VStr "b"; VStr "a"]);
                 ("count", VNum 2)])].
Proof. vm_compute. reflexivity. Qed.

(** * The revised claims, at explicit inputs *)



